(** * gdp_enrollment_scatter_html.py: loader, year selector and renderers

    A shallow embedding of the four stages of the script and the proofs of
    its specification.

    Numbers.  The numeric columns that [pd.to_numeric] builds
    ([gdp_numeric], [gdp_pct_change], ...) are float64 columns: they are
    modelled with Rocq's primitive binary64 floats, operation for operation,
    and a null cell is the float NaN, as in pandas.  The [year] column is
    cast to the nullable integer type [Int64]: a cell is [option Z].

    Plots.  matplotlib, seaborn and plotly are not modelled: a renderer
    returns the description of what it hands to the plotting library (the
    panels with their titles, the markers with their sizes, the annotation
    texts, the size column of the interactive plot). *)

From Stdlib Require Import ZArith List Bool String Ascii Lia Floats.
From Stdlib Require Import DecimalString DecimalZ DecimalPos Sorted Permutation.
Import ListNotations.

Set Warnings "-inexact-float".
Local Open Scope string_scope.
Local Open Scope list_scope.
Local Open Scope Z_scope.

(** ** Python values and exceptions *)

(** The exceptions the script can raise. *)
Inductive exn : Type :=
| FileNotFoundError (msg : string)
| KeyError (key : string)
| TypeError (msg : string)
| ValueError (msg : string)
| ZeroDivisionError.

(** A call either returns a value or raises. *)
Inductive result (A : Type) : Type :=
| Ok (a : A)
| Raise (e : exn).
Arguments Ok {A} a.
Arguments Raise {A} e.

Definition bind {A B : Type} (r : result A) (k : A -> result B) : result B :=
  match r with
  | Ok a => k a
  | Raise e => Raise e
  end.

Notation "x <- r ;; k" := (bind r (fun x => k))
  (at level 61, r at next level, right associativity).

Fixpoint mapM {A B : Type} (f : A -> result B) (l : list A) : result (list B) :=
  match l with
  | [] => Ok []
  | a :: l' => b <- f a ;; bs <- mapM f l' ;; Ok (b :: bs)
  end.

(** [str(n)] of a Python integer. *)
Definition str_int (n : Z) : string := NilZero.string_of_int (Z.to_int n).

(** ** The CSV as [pd.read_csv] returns it *)

(** A cell of the frame read from the CSV.  [CStr] is text that does not
    read as a number; [CNull] is a missing value. *)
Inductive cell : Type :=
| CInt (z : Z)
| CFloat (f : float)
| CStr (s : string)
| CBool (b : bool)
| CNull.

(** Header and records; every record has one cell per header name. *)
Record RawFrame : Type := mkRawFrame {
  raw_columns : list string;
  raw_rows : list (list cell)
}.

(** The files that exist, by path, each with the frame [pd.read_csv] reads
    from it. *)
Definition FileSystem : Type := string -> option RawFrame.

Fixpoint index_of (c : string) (cols : list string) : option nat :=
  match cols with
  | [] => None
  | c' :: cols' =>
      if String.eqb c c' then Some O else option_map S (index_of c cols')
  end.

(** [c in df.columns] *)
Definition has_column (c : string) (df : RawFrame) : bool :=
  match index_of c (raw_columns df) with
  | Some _ => true
  | None => false
  end.

(** The cell of record [r] in column [c]; [None] when the frame has no such
    column (row-wise reading of [df.get(c)]). *)
Definition cell_at (df : RawFrame) (c : string) (r : list cell) : option cell :=
  match index_of c (raw_columns df) with
  | Some i => Some (nth i r CNull)
  | None => None
  end.

(** *** Type coercions of pandas, cell by cell *)

(** The value of a finite integer as a float (round to nearest). *)
Definition Z2float (z : Z) : float :=
  SF2Prim (binary_normalize prec emax z 0 false).

(** The integer a float is equal to, if any. *)
Definition float_to_Z (f : float) : option Z :=
  match Prim2SF f with
  | S754_zero _ => Some 0
  | S754_finite s m e =>
      let sign := if s then (-1) else 1 in
      if 0 <=? e then Some (sign * (Zpos m * 2 ^ e))
      else if (Zpos m mod 2 ^ (- e)) =? 0 then Some (sign * (Zpos m / 2 ^ (- e)))
      else None
  | S754_infinity _ | S754_nan => None
  end.

(** What [pd.to_numeric(..., errors="coerce")] makes of a cell: an integer,
    or a float, NaN for what is not a number. *)
Inductive num : Type :=
| NInt (z : Z)
| NFloat (f : float).

Definition to_numeric (c : cell) : num :=
  match c with
  | CInt z => NInt z
  | CFloat f => NFloat f
  | CBool b => NInt (if b then 1 else 0)
  | CStr _ => NFloat nan
  | CNull => NFloat nan
  end.

(** The cell in a float64 column. *)
Definition as_float (n : num) : float :=
  match n with
  | NInt z => Z2float z
  | NFloat f => f
  end.

(** [.astype("Int64")]: NaN becomes the null integer; a float that is not
    an integer cannot be cast. *)
Definition astype_Int64 (n : num) : result (option Z) :=
  match n with
  | NInt z => Ok (Some z)
  | NFloat f =>
      if is_nan f then Ok None
      else match float_to_Z f with
           | Some z => Ok (Some z)
           | None => Raise (TypeError "cannot safely cast non-equivalent float64 to int64")
           end
  end.

(** [.astype(bool)]: the truth value of the cell (NaN and non-empty text
    are true). *)
Definition astype_bool (c : cell) : bool :=
  match c with
  | CBool b => b
  | CInt z => negb (z =? 0)
  | CFloat f => negb (f =? 0)%float
  | CStr s => negb (String.eqb s "")
  | CNull => true
  end.

(** ** The loaded table *)

(** A record of the table [load_and_prepare] returns.  [country] and
    [both_increase] are [None] when the CSV has no such column; the four
    numeric columns always exist (all NaN when their source column is
    absent). *)
Record Row : Type := mkRow {
  country : option cell;
  year : option Z;
  gdp_numeric : float;
  enrollment_numeric : float;
  gdp_pct_change : float;
  enrollment_pct_change : float;
  both_increase : option bool
}.

Definition DataFrame : Type := list Row.

(** ** CONFIG *)

Definition MAX_PANELS : nat := 6.
Definition SIZE_SCALE : float := 0.00002%float.

(** ** load_and_prepare *)

Definition EXPECTED_COLUMNS : list string :=
  ["country"; "year"; "gdp"; "enrollment"; "gdp_pct_change";
   "enrollment_pct_change"; "both_increase"].

Definition warning (c : string) : string :=
  ("Warning: column '" ++ c ++ "' not present in merged file.")%string.

(** The lines the column check prints. *)
Definition column_warnings (df : RawFrame) : list string :=
  map warning (filter (fun c => negb (has_column c df)) EXPECTED_COLUMNS).

(** [pd.to_numeric(df.get(c, pd.Series()), errors="coerce")], at one record:
    the empty default series has no value for the record, which reads NaN. *)
Definition numeric_or_nan (df : RawFrame) (c : string) (r : list cell) : float :=
  match cell_at df c r with
  | Some x => as_float (to_numeric x)
  | None => nan
  end.

(** The record of the loaded table, given its year. *)
Definition prepare_row (df : RawFrame) (r : list cell) (y : option Z) : Row :=
  {| country := cell_at df "country" r;
     year := y;
     gdp_numeric := numeric_or_nan df "gdp" r;
     enrollment_numeric := numeric_or_nan df "enrollment" r;
     gdp_pct_change := numeric_or_nan df "gdp_pct_change" r;
     enrollment_pct_change := numeric_or_nan df "enrollment_pct_change" r;
     both_increase := option_map astype_bool (cell_at df "both_increase" r) |}.

(** [df["year"]] at one record. *)
Definition year_cell (df : RawFrame) (r : list cell) : cell :=
  match cell_at df "year" r with
  | Some c => c
  | None => CNull
  end.

(** The loader: what it prints, and what it returns or raises.
    [df["year"]] raises [KeyError] when the frame has no [year] column. *)
Definition load_and_prepare (fs : FileSystem) (path : string)
  : list string * result DataFrame :=
  match fs path with
  | None => ([], Raise (FileNotFoundError (path ++ " not found")%string))
  | Some df =>
      let out := column_warnings df in
      if has_column "year" df then
        (out,
         mapM (fun r =>
                 y <- astype_Int64 (to_numeric (year_cell df r)) ;;
                 Ok (prepare_row df r y))
              (raw_rows df))
      else (out, Raise (KeyError "year"))
  end.

(** ** choose_years *)

(** [.dropna()] *)
Fixpoint dropna (l : list (option Z)) : list Z :=
  match l with
  | [] => []
  | Some y :: l' => y :: dropna l'
  | None :: l' => dropna l'
  end.

(** [y in l] *)
Definition py_in (y : Z) (l : list Z) : bool := existsb (Z.eqb y) l.

(** [.unique()]: the distinct values, in order of first appearance. *)
Fixpoint unique_from (seen : list Z) (l : list Z) : list Z :=
  match l with
  | [] => []
  | y :: l' =>
      if py_in y seen then unique_from seen l'
      else y :: unique_from (y :: seen) l'
  end.

Definition unique (l : list Z) : list Z := unique_from [] l.

Fixpoint insert_sorted (y : Z) (l : list Z) : list Z :=
  match l with
  | [] => [y]
  | z :: l' => if y <=? z then y :: l else z :: insert_sorted y l'
  end.

(** [sorted(l)] on integers. *)
Fixpoint sorted (l : list Z) : list Z :=
  match l with
  | [] => []
  | y :: l' => insert_sorted y (sorted l')
  end.

(** The slice [l[-n:]]: the last [n] elements, all of [l] when it is
    shorter (and, as [-0] is [0], also when [n] is [0]). *)
Definition last_n {A : Type} (n : nat) (l : list A) : list A :=
  match n with
  | O => l
  | _ => skipn (List.length l - n) l
  end.

Definition NO_YEARS : exn :=
  ValueError "No requested YEARS are present in the data.".

(** The year selector.  [YEARS] is the module constant, taken as an
    argument; the test [if YEARS:] holds for a list that is not empty, and
    fails for [None] and for the empty list. *)
Definition choose_years (YEARS : option (list Z)) (df : DataFrame)
  : result (list Z) :=
  let yrs := sorted (unique (dropna (map year df))) in
  match YEARS with
  | Some (y0 :: ys) =>
      let use := filter (fun y => py_in y yrs) (y0 :: ys) in
      match use with
      | [] => Raise NO_YEARS
      | _ => Ok use
      end
  | _ => Ok (last_n MAX_PANELS (sorted yrs))
  end.

(** ** Series operations on floats, element by element *)

Local Open Scope float_scope.

(** [.fillna(v)] *)
Definition fillna (v : float) (x : float) : float :=
  if is_nan x then v else x.

(** [.clip(lower=lo, upper=hi)]: a null stays null; a value below [lo]
    becomes [lo], one above [hi] becomes [hi]. *)
Definition clip (lo hi : float) (x : float) : float :=
  let r := if is_nan x || (lo <=? x) then x else lo in
  if is_nan x || (x <=? hi) then r else hi.

(** [.min()] and [.max()] of a non-empty series without nulls. *)
Definition series_min (x : float) (l : list float) : float :=
  fold_left (fun acc y => if y <? acc then y else acc) l x.

Definition series_max (x : float) (l : list float) : float :=
  fold_left (fun acc y => if acc <? y then y else acc) l x.

(** ** make_static_plot *)

(** [df[df["year"] == year]]: a null year matches nothing. *)
Definition year_is (y : Z) (r : Row) : bool :=
  match year r with
  | Some v => Z.eqb v y
  | None => false
  end.

(** The marker size of one record (the [sizes] series, line 81). *)
Definition static_size (r : Row) : float :=
  clip 10 400 (abs (fillna 0 (gdp_numeric r)) * SIZE_SCALE).

Definition palette (b : bool) : string :=
  if b then "#1f77b4" else "#cccccc".

Record Marker : Type := mkMarker {
  m_x : float;
  m_y : float;
  m_color : option string;
  m_size : float
}.

Definition marker_of (r : Row) : Marker :=
  {| m_x := gdp_pct_change r;
     m_y := enrollment_pct_change r;
     m_color := option_map palette (both_increase r);
     m_size := static_size r |}.

(** The [dist] column: [x ** 2] is the float product and [** 0.5] the
    float square root. *)
Definition dist (r : Row) : float :=
  let x := fillna 0 (gdp_pct_change r) in
  let y := fillna 0 (enrollment_pct_change r) in
  sqrt (x * x + y * y).

Fixpoint insert_desc (key : Row -> float) (r : Row) (l : list Row) : list Row :=
  match l with
  | [] => [r]
  | r' :: l' =>
      if key r' <=? key r then r :: l else r' :: insert_desc key r l'
  end.

(** [.sort_values(key, ascending=False)]: greatest first, records of equal
    key in table order, nulls last. *)
Definition sort_values_desc (key : Row -> float) (l : list Row) : list Row :=
  fold_right (insert_desc key) [] (filter (fun r => negb (is_nan (key r))) l)
  ++ filter (fun r => is_nan (key r)) l.

(** A call [ax.text(x, y, str(c))]; [a_text] is the value [c]. *)
Record Annotation : Type := mkAnnotation {
  a_x : float;
  a_y : float;
  a_text : cell
}.

(** [row.get("country", "")] *)
Definition country_or_empty (r : Row) : cell :=
  match country r with
  | Some c => c
  | None => CStr ""
  end.

(** The five records of a panel farthest from the origin. *)
Definition top_outliers (sub : DataFrame) : list Row :=
  firstn 5 (sort_values_desc dist sub).

(** The annotation loop (lines 103 to 106). *)
Fixpoint annotate (top : list Row) : list Annotation :=
  match top with
  | [] => []
  | r :: top' =>
      if is_nan (gdp_pct_change r) || is_nan (enrollment_pct_change r)
      then annotate top'
      else mkAnnotation (gdp_pct_change r) (enrollment_pct_change r)
                        (country_or_empty r) :: annotate top'
  end.

(** One axes of the grid, as the renderer leaves it. *)
Record Panel : Type := mkPanel {
  p_title : option string;
  p_axis_off : bool;
  p_markers : list Marker;
  p_legend : bool;
  p_zero_lines : bool;
  p_xlabel : option string;
  p_ylabel : option string;
  p_texts : list Annotation
}.

(** An axes of the grid that no year uses. *)
Definition blank_panel : Panel :=
  mkPanel None true [] false false None None [].

Definition no_data_panel (y : Z) : Panel :=
  mkPanel (Some (str_int y ++ " (no data)")%string) true [] false false None None [].

(** The body of the loop over the years (lines 71 to 106), for the year
    at position [i]. *)
Definition year_panel (df : DataFrame) (i : nat) (y : Z) : Panel :=
  let sub := filter (year_is y) df in
  match sub with
  | [] => no_data_panel y
  | _ =>
      mkPanel (Some (str_int y)) false (map marker_of sub) (Nat.eqb i 0) true
              (Some "GDP % change (YoY)") (Some "Enrollment % change (YoY)")
              (annotate (top_outliers sub))
  end.

Fixpoint year_panels (df : DataFrame) (i : nat) (years : list Z) : list Panel :=
  match years with
  | [] => []
  | y :: years' => year_panel df i y :: year_panels df (S i) years'
  end.

(** The grid of axes, row by row: the axes of position [i] is
    [axes[i // cols][i % cols]]. *)
Record Figure : Type := mkFigure {
  fig_rows : nat;
  fig_cols : nat;
  fig_axes : list Panel
}.

(** The static renderer.  With no year, [cols] is [0] and the division
    that computes [rows] raises. *)
Definition make_static_plot (df : DataFrame) (years : list Z) : result Figure :=
  let n := List.length years in
  let cols := Nat.min 3 n in
  match cols with
  | O => Raise ZeroDivisionError
  | _ =>
      let rows := ((n + cols - 1) / cols)%nat in
      Ok (mkFigure rows cols
            (year_panels df 0 years ++ repeat blank_panel (rows * cols - n)))
  end.

(** ** make_interactive_plot *)

(** [df["year"].isin(years)] at one record. *)
Definition year_isin (years : list Z) (r : Row) : bool :=
  match year r with
  | Some v => py_in v years
  | None => false
  end.

(** [sub["gdp_numeric"].dropna()] *)
Definition gdp_nonnull (sub : DataFrame) : list float :=
  filter (fun g => negb (is_nan g)) (map gdp_numeric sub).

(** The [size] column of the filtered records (lines 119 to 128). *)
Definition size_column (sub : DataFrame) : list float :=
  match gdp_nonnull sub with
  | g :: gs =>
      let min_g := series_min g gs in
      let max_g := series_max g gs in
      if min_g <? max_g then
        map (fun r => 15 + 85 * ((fillna min_g (gdp_numeric r) - min_g)
                                 / (max_g - min_g))) sub
      else map (fun _ => 35) sub
  | [] => map (fun _ => 25) sub
  end.

(** The interactive renderer: the filtered records, each with its marker
    size, as handed to [px.scatter]. *)
Definition make_interactive_plot (df : DataFrame) (years : list Z)
  : list (Row * float) :=
  let sub := filter (year_isin years) df in
  combine sub (size_column sub).

Local Close Scope float_scope.

(** ** Specification vocabulary *)

(** [y] occurs as a non-null value of the year column. *)
Definition year_occurs (df : DataFrame) (y : Z) : bool :=
  existsb (year_is y) df.

(** The number of distinct non-null years of the table. *)
Definition distinct_years (df : DataFrame) : nat :=
  List.length (nodup Z.eq_dec (dropna (map year df))).

(** *** Sample inputs *)

(** A file system with one file. *)
Definition one_file (path : string) (df : RawFrame) : FileSystem :=
  fun p => if String.eqb p path then Some df else None.

(** A CSV with a header that has no [year] column. *)
Definition csv_without_year : RawFrame :=
  mkRawFrame ["country"; "gdp"] [[CStr "Chile"; CInt 5]].

(** A record of a loaded table: country, year, [gdp_numeric] and the two
    percent changes. *)
Definition sample_row (c : string) (y : Z) (g x e : float) : Row :=
  mkRow (Some (CStr c)) (Some y) g nan x e (Some true).

Definition sample_table : DataFrame :=
  [sample_row "Chile" 2019 0 3 4;
   sample_row "Peru" 2019 50 1 1;
   sample_row "Cuba" 2019 100 nan 2;
   sample_row "Fiji" 2020 nan 0 0]%float.

(** A table whose least [gdp_numeric] is minus infinity. *)
Definition table_minus_infinity : DataFrame :=
  [sample_row "Chile" 2020 neg_infinity 1 1;
   sample_row "Peru" 2020 0 1 1;
   sample_row "Cuba" 2020 nan 1 1]%float.



(** *** Classes of binary64 values

    The primitive operations are specified on [spec_float] (sign, mantissa
    and exponent); these predicates name the classes the proofs go through. *)

Definition SFis_nan (x : spec_float) : bool :=
  match x with
  | S754_nan => true
  | _ => false
  end.

(** A value of sign [s], as rounding returns it: never NaN. *)
Definition SFrounded (s : bool) (x : spec_float) : Prop :=
  match x with
  | S754_zero s' | S754_infinity s' | S754_finite s' _ _ => s' = s
  | S754_nan => False
  end.

(** A zero or a positive value. *)
Definition SFnonneg (x : spec_float) : Prop :=
  match x with
  | S754_zero _ => True
  | S754_infinity s | S754_finite s _ _ => s = false
  | S754_nan => False
  end.

(** Neither NaN nor a zero. *)
Definition SFnonzero (x : spec_float) : Prop :=
  match x with
  | S754_infinity _ | S754_finite _ _ _ => True
  | S754_zero _ | S754_nan => False
  end.

(** A zero or a finite value. *)
Definition SFfinite (x : spec_float) : Prop :=
  match x with
  | S754_zero _ | S754_finite _ _ _ => True
  | S754_infinity _ | S754_nan => False
  end.

(** The place of a value in the order of floats: its class, then its
    exponent, then its mantissa. *)
Definition SFrank (x : spec_float) : Z * (Z * Z) :=
  match x with
  | S754_infinity true => (-2, (0, 0))
  | S754_finite true m e => (-1, (- e, - Z.pos m))
  | S754_zero _ => (0, (0, 0))
  | S754_finite false m e => (1, (e, Z.pos m))
  | S754_infinity false => (2, (0, 0))
  | S754_nan => (3, (0, 0))
  end.


Definition rank_lt (a b : Z * (Z * Z)) : Prop :=
  fst a < fst b \/
  (fst a = fst b /\
   (fst (snd a) < fst (snd b) \/
    (fst (snd a) = fst (snd b) /\ snd (snd a) < snd (snd b)))).

(** *** Further vocabulary *)


(** The record has a year. *)
Definition has_year (r : Row) : bool :=
  match year r with
  | Some _ => true
  | None => false
  end.

(** The number of markers of a figure. *)
Definition total_markers (fig : Figure) : nat :=
  list_sum (map (fun p => List.length (p_markers p)) (fig_axes fig)).

(** The selection and the static plot as [main] chains them (lines 155
    and 157): the years [choose_years] returns go to [make_static_plot]. *)
Definition select_and_plot (YEARS : option (list Z)) (df : DataFrame)
  : result Figure :=
  years <- choose_years YEARS df ;; make_static_plot df years.

(** A CSV with the seven expected columns; the second record has text
    where a year and a GDP are expected. *)
Definition csv_full : RawFrame :=
  mkRawFrame EXPECTED_COLUMNS
    [[CStr "Chile"; CInt 2019; CInt 5; CInt 7; CFloat 3; CFloat 4; CBool true];
     [CStr "Peru"; CStr "n/a"; CStr "x"; CNull; CNull; CFloat 1; CStr ""]].


(** A CSV with a country and a year only. *)
Definition csv_without_gdp : RawFrame :=
  mkRawFrame ["country"; "year"] [[CStr "Chile"; CInt 2019]].

(** * The loader *)

Lemma load_and_prepare_no_file (fs : FileSystem) (path : string) :
  fs path = None ->
  load_and_prepare fs path =
  ([], Raise (FileNotFoundError (path ++ " not found")%string)).
Proof. unfold load_and_prepare. now intros ->. Qed.

(** What the loader prints for a file that exists: one warning for each
    expected column the CSV lacks. *)
Lemma load_and_prepare_prints (fs : FileSystem) (path : string) (raw : RawFrame) :
  fs path = Some raw ->
  fst (load_and_prepare fs path) =
  map warning (filter (fun c => negb (has_column c raw)) EXPECTED_COLUMNS).
Proof.
  unfold load_and_prepare. intros ->. now destruct (has_column "year" raw).
Qed.

(** An absent [year] column is fatal. *)
Lemma load_and_prepare_no_year (fs : FileSystem) (path : string) (raw : RawFrame) :
  fs path = Some raw -> has_column "year" raw = false ->
  snd (load_and_prepare fs path) = Raise (KeyError "year").
Proof. unfold load_and_prepare. now intros -> ->. Qed.

Lemma mapM_returns {A B : Type} (f : A -> result B) (l : list A) :
  (forall a, In a l -> exists b, f a = Ok b) ->
  exists bs, mapM f l = Ok bs /\ List.length bs = List.length l.
Proof.
  induction l as [| a l IH]; intros H; simpl.
  - exists []. auto.
  - destruct (H a (or_introl eq_refl)) as [b ->].
    destruct IH as [bs [-> Hlen]]; [intros x Hx; apply H; now right |].
    simpl. exists (b :: bs). simpl. auto.
Qed.

(** With a [year] column whose cells are integers or nulls, the loader
    returns a table with one record for each record of the CSV, whatever
    other columns are absent. *)
Lemma load_and_prepare_returns (fs : FileSystem) (path : string) (raw : RawFrame) :
  fs path = Some raw -> has_column "year" raw = true ->
  (forall r, In r (raw_rows raw) ->
     exists y, astype_Int64 (to_numeric (year_cell raw r)) = Ok y) ->
  exists df, snd (load_and_prepare fs path) = Ok df /\
             List.length df = List.length (raw_rows raw).
Proof.
  unfold load_and_prepare. intros -> -> H. simpl.
  apply mapM_returns. intros r Hr. destruct (H r Hr) as [y ->]. simpl. eauto.
Qed.

(** C1.  The loader does not tolerate every absent column.  For a CSV that
    exists and has no [year] column it prints its warnings, one of them for
    [year], and then raises [KeyError]: this absent column is fatal, where
    the other absent columns are read through [df.get] with a default. *)
Theorem load_and_prepare_missing_year :
  one_file "merged_clean.csv" csv_without_year "merged_clean.csv"
    = Some csv_without_year
  /\ load_and_prepare (one_file "merged_clean.csv" csv_without_year)
                      "merged_clean.csv"
     = ([warning "year"; warning "enrollment"; warning "gdp_pct_change";
         warning "enrollment_pct_change"; warning "both_increase"],
        Raise (KeyError "year"))
  /\ (forall (fs : FileSystem) (path : string) (raw : RawFrame),
        fs path = Some raw -> has_column "year" raw = false ->
        load_and_prepare fs path
        = (column_warnings raw, Raise (KeyError "year"))).
Proof.
  split; [reflexivity | split; [reflexivity |]].
  intros fs path raw Hfile Hyear. unfold load_and_prepare.
  now rewrite Hfile, Hyear.
Qed.

(** * The year selector *)

Lemma py_in_In (y : Z) (l : list Z) : py_in y l = true <-> In y l.
Proof.
  unfold py_in. rewrite existsb_exists. split.
  - intros [z [Hz Heq]]. apply Z.eqb_eq in Heq. now subst.
  - intros H. exists y. split; [assumption | apply Z.eqb_refl].
Qed.

Lemma py_in_false (y : Z) (l : list Z) : py_in y l = false <-> ~ In y l.
Proof.
  rewrite <- py_in_In. destruct (py_in y l); split; congruence.
Qed.

Lemma dropna_In (y : Z) (l : list (option Z)) :
  In y (dropna l) <-> In (Some y) l.
Proof.
  induction l as [| [z |] l IH]; simpl.
  - tauto.
  - rewrite IH. split; intros [H | H]; auto; left; congruence.
  - rewrite IH. split; [auto | intros [H | H]; [discriminate | assumption]].
Qed.

Lemma year_occurs_In (df : DataFrame) (y : Z) :
  year_occurs df y = true <-> In (Some y) (map year df).
Proof.
  unfold year_occurs. rewrite existsb_exists, in_map_iff. split.
  - intros [r [Hr Hy]]. exists r. split; [| assumption].
    unfold year_is in Hy. destruct (year r); [| discriminate].
    apply Z.eqb_eq in Hy. now subst.
  - intros [r [Hy Hr]]. exists r. split; [assumption |].
    unfold year_is. rewrite Hy. apply Z.eqb_refl.
Qed.

Lemma unique_from_In (l seen : list Z) (y : Z) :
  In y (unique_from seen l) <-> In y l /\ ~ In y seen.
Proof.
  revert seen. induction l as [| z l IH]; intros seen; simpl.
  - tauto.
  - destruct (py_in z seen) eqn:E.
    + apply py_in_In in E. rewrite IH. split.
      * intros [H1 H2]. auto.
      * intros [[H1 | H1] H2]; [subst; contradiction | auto].
    + apply py_in_false in E. simpl. rewrite IH. simpl. split.
      * intros [H | [H1 H2]]; [subst; auto |]. split; [auto |].
        intros H3. apply H2. now right.
      * intros [[H1 | H1] H2]; [now left |].
        destruct (Z.eq_dec z y) as [-> | Hne]; [now left | right].
        split; [assumption |]. intros [H3 | H3]; contradiction.
Qed.

Lemma unique_from_NoDup (l seen : list Z) : NoDup (unique_from seen l).
Proof.
  revert seen. induction l as [| z l IH]; intros seen; simpl.
  - constructor.
  - destruct (py_in z seen) eqn:E; [apply IH |].
    constructor; [| apply IH].
    rewrite unique_from_In. intros [_ H]. apply H. now left.
Qed.

Lemma unique_In (l : list Z) (y : Z) : In y (unique l) <-> In y l.
Proof. unfold unique. rewrite unique_from_In. simpl. tauto. Qed.

Lemma unique_NoDup (l : list Z) : NoDup (unique l).
Proof. apply unique_from_NoDup. Qed.

Lemma insert_sorted_In (y z : Z) (l : list Z) :
  In z (insert_sorted y l) <-> z = y \/ In z l.
Proof.
  induction l as [| x l IH]; simpl.
  - intuition.
  - destruct (y <=? x); simpl; [intuition |]. rewrite IH. intuition.
Qed.

Lemma sorted_In (l : list Z) (z : Z) : In z (sorted l) <-> In z l.
Proof.
  induction l as [| y l IH]; simpl; [tauto |].
  rewrite insert_sorted_In, IH. intuition.
Qed.

Lemma insert_sorted_NoDup (y : Z) (l : list Z) :
  ~ In y l -> NoDup l -> NoDup (insert_sorted y l).
Proof.
  induction l as [| x l IH]; simpl; intros Hy Hl.
  - constructor; [auto | constructor].
  - destruct (y <=? x).
    + constructor; assumption.
    + inversion Hl; subst. constructor.
      * rewrite insert_sorted_In. intros [-> | H]; [apply Hy; now left | auto].
      * apply IH; [intros H; apply Hy; now right | assumption].
Qed.

Lemma sorted_NoDup (l : list Z) : NoDup l -> NoDup (sorted l).
Proof.
  induction 1 as [| y l Hy Hl IH]; simpl; [constructor |].
  apply insert_sorted_NoDup; [now rewrite sorted_In | assumption].
Qed.

Lemma insert_sorted_ascending (y : Z) (l : list Z) :
  StronglySorted Z.le l -> StronglySorted Z.le (insert_sorted y l).
Proof.
  induction 1 as [| x l Hl IH Hx]; simpl.
  - repeat constructor.
  - destruct (y <=? x) eqn:E.
    + apply Z.leb_le in E. constructor.
      * constructor; assumption.
      * constructor; [assumption |].
        rewrite Forall_forall in *. intros z Hz. specialize (Hx z Hz). lia.
    + apply Z.leb_gt in E. constructor; [assumption |].
      rewrite Forall_forall in *. intros z Hz.
      apply insert_sorted_In in Hz. destruct Hz as [-> | Hz]; [lia | auto].
Qed.

Lemma sorted_ascending (l : list Z) : StronglySorted Z.le (sorted l).
Proof.
  induction l as [| y l IH]; simpl; [constructor |].
  now apply insert_sorted_ascending.
Qed.

Lemma ascending_strict (l : list Z) :
  StronglySorted Z.le l -> NoDup l -> StronglySorted Z.lt l.
Proof.
  induction 1 as [| x l Hl IH Hx]; intros Hnd; [constructor |].
  inversion Hnd; subst. constructor; [auto |].
  rewrite Forall_forall in *. intros z Hz. specialize (Hx z Hz).
  assert (z <> x) by (intros ->; contradiction). lia.
Qed.

(** Sorting a list that is in ascending order changes nothing. *)
Lemma sorted_fixpoint (l : list Z) : StronglySorted Z.le l -> sorted l = l.
Proof.
  induction 1 as [| x l Hl IH Hx]; simpl; [reflexivity |].
  rewrite IH. destruct l as [| z l]; [reflexivity |]. simpl.
  inversion Hx; subst. assert (E : (x <=? z) = true) by now apply Z.leb_le.
  now rewrite E.
Qed.

Lemma last_n_suffix {A : Type} (n : nat) (l : list A) :
  exists front, l = front ++ last_n n l /\
                (List.length front = List.length l - n \/ n = O)%nat.
Proof.
  destruct n as [| n]; simpl.
  - exists []. auto.
  - exists (firstn (List.length l - S n) l). split.
    + symmetry. apply firstn_skipn.
    + left. rewrite length_firstn. lia.
Qed.

Lemma last_n_short {A : Type} (n : nat) (l : list A) :
  (List.length l <= n)%nat -> last_n n l = l.
Proof.
  intros H. destruct n as [| n]; [reflexivity |]. unfold last_n.
  replace (List.length l - S n)%nat with O by lia. reflexivity.
Qed.

Lemma last_n_length {A : Type} (n : nat) (l : list A) :
  (0 < n <= List.length l)%nat -> List.length (last_n n l) = n.
Proof.
  intros H. destruct n as [| n]; [lia |]. unfold last_n.
  rewrite length_skipn. lia.
Qed.

Lemma StronglySorted_app_inv {A : Type} (R : A -> A -> Prop) (l1 l2 : list A) :
  StronglySorted R (l1 ++ l2) ->
  StronglySorted R l2 /\ forall a b, In a l1 -> In b l2 -> R a b.
Proof.
  induction l1 as [| x l1 IH]; simpl; intros H.
  - split; [assumption | intros a b []].
  - inversion H as [| ? ? Hs Hf]; subst. destruct (IH Hs) as [H2 H12].
    split; [assumption |]. intros a b [-> | Ha] Hb; [| auto].
    rewrite Forall_forall in Hf. apply Hf. apply in_or_app. now right.
Qed.


(** The sorted distinct years [yrs] that [choose_years] starts from. *)
Lemma yrs_In (df : DataFrame) (y : Z) :
  In y (sorted (unique (dropna (map year df)))) <-> year_occurs df y = true.
Proof. now rewrite sorted_In, unique_In, dropna_In, year_occurs_In. Qed.

Lemma yrs_py_in (df : DataFrame) (y : Z) :
  py_in y (sorted (unique (dropna (map year df)))) = year_occurs df y.
Proof.
  destruct (year_occurs df y) eqn:E.
  - apply py_in_In. now apply yrs_In.
  - apply py_in_false. rewrite yrs_In. congruence.
Qed.

Lemma yrs_strict (df : DataFrame) :
  StronglySorted Z.lt (sorted (unique (dropna (map year df)))).
Proof.
  apply ascending_strict; [apply sorted_ascending |].
  apply sorted_NoDup, unique_NoDup.
Qed.

Lemma yrs_length (df : DataFrame) :
  List.length (sorted (unique (dropna (map year df)))) = distinct_years df.
Proof.
  unfold distinct_years. apply Permutation_length, NoDup_Permutation.
  - apply sorted_NoDup, unique_NoDup.
  - apply NoDup_nodup.
  - intros y. now rewrite sorted_In, unique_In, nodup_In.
Qed.

Lemma choose_years_explicit_eq (df : DataFrame) (y : Z) (l : list Z) :
  choose_years (Some (y :: l)) df =
  match filter (year_occurs df) (y :: l) with
  | [] => Raise NO_YEARS
  | use => Ok use
  end.
Proof.
  unfold choose_years.
  rewrite (filter_ext _ (year_occurs df) (yrs_py_in df)).
  now destruct (filter (year_occurs df) (y :: l)).
Qed.

Lemma choose_years_auto_eq (df : DataFrame) :
  choose_years None df =
  Ok (last_n MAX_PANELS (sorted (unique (dropna (map year df))))).
Proof.
  unfold choose_years.
  now rewrite (sorted_fixpoint _ (sorted_ascending _)).
Qed.

Lemma filter_nil_iff {A : Type} (f : A -> bool) (l : list A) :
  filter f l = [] <-> forall a, In a l -> f a = false.
Proof.
  induction l as [| a l IH]; simpl.
  - split; [intros _ a [] | reflexivity].
  - destruct (f a) eqn:E; split.
    + discriminate.
    + intros H. specialize (H a (or_introl eq_refl)). congruence.
    + intros H b [-> | Hb]; [assumption | now apply IH].
    + intros H. apply IH. intros b Hb. apply H. now right.
Qed.

Lemma last_n_yrs_occur (df : DataFrame) (n : nat) (y : Z) :
  In y (last_n n (sorted (unique (dropna (map year df))))) ->
  year_occurs df y = true.
Proof.
  intros H. apply yrs_In.
  destruct (last_n_suffix n (sorted (unique (dropna (map year df)))))
    as [front [E _]].
  rewrite E. apply in_or_app. now right.
Qed.

(** C2.  With a non-empty explicit list, [choose_years] returns the members
    of the list that occur as non-null years of the table, in the order of
    the list; it raises the "no requested years present" error exactly when
    no listed year occurs.  On data where 2019 occurs and 2099 does not, the
    list [2019, 2099] yields [2019]. *)
Theorem choose_years_explicit (df : DataFrame) (l : list Z) :
  l <> [] ->
  choose_years (Some l) df =
    match filter (year_occurs df) l with
    | [] => Raise NO_YEARS
    | use => Ok use
    end
  /\ (forall res, choose_years (Some l) df = Ok res ->
                  res = filter (year_occurs df) l)
  /\ (choose_years (Some l) df = Raise NO_YEARS <->
      forall y, In y l -> year_occurs df y = false)
  /\ (l = [2019; 2099] -> year_occurs df 2019 = true ->
      year_occurs df 2099 = false ->
      choose_years (Some l) df = Ok [2019]).
Proof.
  intros Hl. destruct l as [| y l]; [congruence |].
  rewrite choose_years_explicit_eq. repeat split.
  - intros res H. destruct (filter (year_occurs df) (y :: l)); congruence.
  - intros H. apply filter_nil_iff.
    destruct (filter (year_occurs df) (y :: l)); [reflexivity | discriminate].
  - intros H. apply filter_nil_iff in H. now rewrite H.
  - intros E H1 H2. injection E as -> ->. simpl. now rewrite H1, H2.
Qed.

(** C3.  With no explicit list, [choose_years] returns years of the table in
    strictly ascending order, and every year of the table it leaves out is
    older than every year it returns; it returns 6 years when the table has
    more than 6 distinct years, and all of them when it has 6 or fewer. *)
Theorem choose_years_auto (df : DataFrame) :
  exists res,
    choose_years None df = Ok res
    /\ StronglySorted Z.lt res
    /\ (forall y, In y res -> year_occurs df y = true)
    /\ (forall y z, year_occurs df y = true -> ~ In y res -> In z res -> y < z)
    /\ (6 < distinct_years df -> List.length res = 6)%nat
    /\ (distinct_years df <= 6 ->
        forall y, year_occurs df y = true -> In y res)%nat.
Proof.
  rewrite choose_years_auto_eq.
  set (yrs := sorted (unique (dropna (map year df)))).
  exists (last_n MAX_PANELS yrs). split; [reflexivity |].
  destruct (last_n_suffix MAX_PANELS yrs) as [front [Hsplit _]].
  assert (Hs : StronglySorted Z.lt (front ++ last_n MAX_PANELS yrs))
    by (rewrite <- Hsplit; apply yrs_strict).
  apply StronglySorted_app_inv in Hs. destruct Hs as [Hres Hlt].
  assert (Hin : forall y, In y (last_n MAX_PANELS yrs) -> In y yrs).
  { intros y Hy. rewrite Hsplit. apply in_or_app. now right. }
  repeat split.
  - assumption.
  - intros y Hy. apply yrs_In. auto.
  - intros y z Hy Hn Hz. apply yrs_In in Hy. fold yrs in Hy.
    rewrite Hsplit in Hy. apply in_app_or in Hy.
    destruct Hy as [Hy | Hy]; [auto | contradiction].
  - intros H. apply last_n_length. unfold yrs. rewrite yrs_length.
    unfold MAX_PANELS. lia.
  - intros H y Hy. rewrite last_n_short.
    + now apply yrs_In.
    + unfold yrs. rewrite yrs_length. unfold MAX_PANELS. lia.
Qed.

(** C8.  Whatever the configuration, every year [choose_years] returns
    occurs as a non-null value of the year column of the table. *)
Theorem choose_years_present (YEARS : option (list Z)) (df : DataFrame)
    (res : list Z) :
  choose_years YEARS df = Ok res ->
  forall y, In y res -> year_occurs df y = true.
Proof.
  intros H y Hy. destruct YEARS as [[| z l] |].
  - change (choose_years None df = Ok res) in H.
    rewrite choose_years_auto_eq in H. injection H as <-.
    exact (last_n_yrs_occur df MAX_PANELS y Hy).
  - rewrite choose_years_explicit_eq in H.
    assert (res = filter (year_occurs df) (z :: l))
      by (destruct (filter (year_occurs df) (z :: l)); congruence).
    subst res. apply filter_In in Hy. tauto.
  - rewrite choose_years_auto_eq in H. injection H as <-.
    exact (last_n_yrs_occur df MAX_PANELS y Hy).
Qed.


(** * Facts on binary64 arithmetic

    Derived from the specification of the primitive floats in the Standard
    Library ([SpecFloat] and the axioms of [FloatAxioms]). *)

Module Binary64.

Lemma SFeqb_refl (s : spec_float) : SFeqb s s = negb (SFis_nan s).
Proof.
  destruct s as [[|]|[|]| |[|] m e]; try reflexivity;
  unfold SFeqb; simpl; rewrite Z.compare_refl, Pos.compare_cont_refl; reflexivity.
Qed.

Lemma is_nan_spec (x : float) : is_nan x = SFis_nan (Prim2SF x).
Proof.
  unfold is_nan. rewrite eqb_spec, SFeqb_refl. apply negb_involutive.
Qed.

Lemma shr_1_nonneg r : 0 <= shr_m r -> 0 <= shr_m (shr_1 r).
Proof.
  destruct r as [m rr ss]. simpl. destruct m as [| [p|p|] | [p|p|]]; simpl; lia.
Qed.

Lemma iter_pos_invariant {A} (P : A -> Prop) (f : A -> A) :
  (forall a, P a -> P (f a)) -> forall p a, P a -> P (iter_pos f p a).
Proof.
  intros Hf. induction p as [p IH | p IH |]; intros a Ha; simpl; auto.
Qed.

Lemma shr_nonneg r e n : 0 <= shr_m r -> 0 <= shr_m (fst (shr r e n)).
Proof.
  intros H. destruct n; simpl; try assumption.
  apply (iter_pos_invariant (fun r => 0 <= shr_m r)); [apply shr_1_nonneg | assumption].
Qed.

Lemma shr_record_of_loc_m m l : shr_m (shr_record_of_loc m l) = m.
Proof. destruct l as [| []]; reflexivity. Qed.

Lemma shr_fexp_nonneg prec emax m e l :
  0 <= m -> 0 <= shr_m (fst (shr_fexp prec emax m e l)).
Proof.
  intros H. unfold shr_fexp. apply shr_nonneg. now rewrite shr_record_of_loc_m.
Qed.

Lemma round_nearest_even_nonneg m l : 0 <= m -> 0 <= round_nearest_even m l.
Proof.
  intros H. destruct l as [| []]; simpl; try lia. destruct (Z.even m); lia.
Qed.

Lemma binary_round_aux_rounded prec emax s m e l :
  0 <= m -> SFrounded s (binary_round_aux prec emax s m e l).
Proof.
  intros H. unfold binary_round_aux.
  pose proof (shr_fexp_nonneg prec emax m e l H) as H1.
  destruct (shr_fexp prec emax m e l) as [r1 e1]. simpl in H1.
  pose proof (shr_fexp_nonneg prec emax _ e1 loc_Exact
                (round_nearest_even_nonneg _ (loc_of_shr_record r1) H1)) as H2.
  destruct (shr_fexp prec emax _ e1 loc_Exact) as [r2 e2]. simpl in H2.
  destruct (shr_m r2) as [| p | p]; simpl; try reflexivity; [| lia].
  destruct (e2 <=? emax - prec); reflexivity.
Qed.



Lemma SFrounded_nonneg x : SFrounded false x -> SFnonneg x.
Proof. destruct x; simpl; auto. Qed.

Lemma xorb_same s : xorb s s = false.
Proof. now destruct s. Qed.

Lemma SFmul_square_nonneg prec emax x :
  SFis_nan x = false -> SFnonneg (SFmul prec emax x x).
Proof.
  destruct x as [sx | sx | | sx mx ex]; simpl; intros H; try exact I;
    try apply xorb_same; try discriminate.
  rewrite xorb_same. apply SFrounded_nonneg, binary_round_aux_rounded. lia.
Qed.

Lemma binary_round_rounded prec emax s m e :
  SFrounded s (binary_round prec emax s m e).
Proof.
  unfold binary_round. destruct (shl_align _ _ _) as [mz ez].
  apply binary_round_aux_rounded. lia.
Qed.

Lemma SFadd_nonneg prec emax x y :
  SFnonneg x -> SFnonneg y -> SFnonneg (SFadd prec emax x y).
Proof.
  destruct x as [sx | sx | | sx mx ex], y as [sy | sy | | sy my ey];
    simpl; intros Hx Hy; subst; try tauto; try reflexivity.
  - destruct sx, sy; exact I.
  - apply SFrounded_nonneg. apply binary_round_rounded.
Qed.

Lemma SFsqrt_nonneg prec emax x :
  SFnonneg x -> SFnonneg (SFsqrt prec emax x).
Proof.
  destruct x as [sx | sx | | sx mx ex]; simpl; intros H; subst;
    try tauto; try reflexivity.
  destruct (SFsqrt_core_binary prec emax (Z.pos mx) ex) as [[mz ez] lz] eqn:E.
  apply SFrounded_nonneg, binary_round_aux_rounded.
  unfold SFsqrt_core_binary in E.
  match type of E with context [Z.sqrtrem ?n] =>
    pose proof (Z.sqrtrem_sqrt n) as Hq; destruct (Z.sqrtrem n) as [q r] end.
  simpl in Hq. injection E as <- _ _. rewrite Hq. apply Z.sqrt_nonneg.
Qed.

Lemma SFnonneg_not_nan x : SFnonneg x -> SFis_nan x = false.
Proof. destruct x; simpl; tauto. Qed.

Ltac compare_cases :=
  repeat match goal with
  | |- context [Z.compare ?a ?b] => destruct (Z.compare_spec a b)
  | |- context [Pos.compare_cont Eq ?a ?b] =>
      change (Pos.compare_cont Eq a b) with (Pos.compare a b);
      destruct (Pos.compare_spec a b)
  end.


Lemma SFltb_rank x y :
  SFis_nan x = false -> SFis_nan y = false ->
  (SFltb x y = true <-> rank_lt (SFrank x) (SFrank y)).
Proof.
  unfold SFltb, rank_lt.
  destruct x as [sx | [|] | | [|] mx ex], y as [sy | [|] | | [|] my ey];
    simpl; intros Hx Hy; try discriminate;
    compare_cases; simpl; split; intros Hxy; try reflexivity; try discriminate;
    subst; lia.
Qed.


Lemma SFltb_not_nan x y : SFltb x y = true -> SFis_nan x = false /\ SFis_nan y = false.
Proof. unfold SFltb. destruct x, y; simpl; intros H; try discriminate; auto. Qed.






(** *** Rounding a non-zero value never gives zero *)

Lemma digits2_size p : digits2_pos p = Pos.size p.
Proof. induction p; simpl; congruence. Qed.

Lemma digits2_bounds p :
  2 ^ (Z.pos (digits2_pos p) - 1) <= Z.pos p < 2 ^ Z.pos (digits2_pos p).
Proof.
  rewrite digits2_size. split.
  - pose proof (Pos.size_le p) as H.
    apply Pos2Z.pos_le_pos in H. rewrite Pos2Z.inj_pow in H.
    replace (Z.pos (Pos.size p)) with (Z.succ (Z.pos (Pos.size p) - 1)) in H by lia.
    rewrite Z.pow_succ_r in H by lia. lia.
  - pose proof (Pos.size_gt p) as H.
    apply Pos2Z.pos_lt_pos in H. now rewrite Pos2Z.inj_pow in H.
Qed.

Lemma shr_1_div2 r : 0 <= shr_m r -> shr_m (shr_1 r) = shr_m r / 2.
Proof.
  destruct r as [m rr ss]. simpl. intros H. rewrite <- Z.div2_div.
  destruct m as [| [p|p|] | p]; simpl; try reflexivity; lia.
Qed.

Lemma iter_shr_1_div p : forall r,
  0 <= shr_m r ->
  0 <= shr_m (iter_pos shr_1 p r) /\
  shr_m (iter_pos shr_1 p r) = shr_m r / 2 ^ Z.pos p.
Proof.
  assert (P2 : forall q, 0 < 2 ^ Z.pos q) by (intros; apply Z.pow_pos_nonneg; lia).
  induction p as [p IH | p IH |]; intros r Hr; cbn [iter_pos].
  - pose proof (shr_1_nonneg r Hr) as H0. pose proof (shr_1_div2 r Hr) as E0.
    destruct (IH _ H0) as [H1 E1]. destruct (IH _ H1) as [H2 E2].
    split; [assumption |]. rewrite E2, E1, E0.
    pose proof (P2 p).
    rewrite !Z.div_div by lia. f_equal.
    rewrite (Pos2Z.inj_xI p). replace (2 * Z.pos p + 1) with (1 + Z.pos p + Z.pos p) by lia.
    rewrite !Z.pow_add_r by lia. lia.
  - destruct (IH _ Hr) as [H1 E1]. destruct (IH _ H1) as [H2 E2].
    split; [assumption |]. rewrite E2, E1.
    pose proof (P2 p).
    rewrite !Z.div_div by lia. f_equal.
    rewrite (Pos2Z.inj_xO p). replace (2 * Z.pos p) with (Z.pos p + Z.pos p) by lia.
    rewrite !Z.pow_add_r by lia. lia.
  - split; [now apply shr_1_nonneg |]. rewrite shr_1_div2 by assumption.
    reflexivity.
Qed.

Section RoundingNonZero.

Variables prec emax : Z.
Hypothesis prec_pos : 0 < prec.

Local Abbreviation emin := (SpecFloat.emin prec emax).

Lemma shr_fexp_pos m e l :
  0 < m -> emin <= e ->
  0 < shr_m (fst (shr_fexp prec emax m e l)) /\
  emin <= snd (shr_fexp prec emax m e l).
Proof.
  intros Hm He. unfold shr_fexp, shr, fexp.
  destruct m as [| p | p]; try lia. cbn [Zdigits2].
  pose proof (digits2_bounds p) as [Hlo _].
  set (d := Z.pos (digits2_pos p)) in *.
  destruct (Z.max (d + e - prec) emin - e) as [| n | n] eqn:E; simpl;
    rewrite ?shr_record_of_loc_m; try lia.
  destruct (iter_shr_1_div n (shr_record_of_loc (Z.pos p) l)) as [_ Ed];
    [rewrite shr_record_of_loc_m; lia |].
  rewrite Ed, shr_record_of_loc_m. split; [| lia].
  apply Z.div_str_pos. split; [apply Z.pow_pos_nonneg; lia |].
  apply Z.le_trans with (2 ^ (d - 1)); [| assumption].
  apply Z.pow_le_mono_r; lia.
Qed.

Lemma binary_round_aux_nonzero s m e l :
  0 < m -> emin <= e -> SFnonzero (binary_round_aux prec emax s m e l).
Proof.
  intros Hm He. unfold binary_round_aux.
  destruct (shr_fexp_pos m e l Hm He) as [H1 E1].
  destruct (shr_fexp prec emax m e l) as [r1 e1]. simpl in H1, E1.
  assert (Hr : 0 < round_nearest_even (shr_m r1) (loc_of_shr_record r1)).
  { destruct (loc_of_shr_record r1) as [| []]; simpl; try lia.
    destruct (Z.even (shr_m r1)); lia. }
  destruct (shr_fexp_pos _ e1 loc_Exact Hr E1) as [H2 _].
  destruct (shr_fexp prec emax _ e1 loc_Exact) as [r2 e2]. simpl in H2.
  destruct (shr_m r2); try lia. destruct (e2 <=? emax - prec); exact I.
Qed.

Lemma binary_round_nonzero s m e :
  emin <= e -> SFnonzero (binary_round prec emax s m e).
Proof.
  intros He. unfold binary_round, shl_align.
  destruct (fexp prec emax (Z.pos (digits2_pos m) + e) - e) eqn:E;
    apply binary_round_aux_nonzero; try lia.
  unfold fexp. lia.
Qed.

Lemma binary_normalize_nonzero m e sz :
  m <> 0 -> emin <= e -> SFnonzero (binary_normalize prec emax m e sz).
Proof.
  intros Hm He. destruct m; simpl; [congruence | |]; now apply binary_round_nonzero.
Qed.

(** What [valid_binary] says of a finite float. *)
Lemma bounded_canonical m e :
  bounded prec emax m e = true ->
  emin <= e /\ Z.pos m < 2 ^ prec /\ (emin < e -> 2 ^ (prec - 1) <= Z.pos m).
Proof.
  unfold bounded, canonical_mantissa, fexp. intros H.
  apply andb_prop in H. destruct H as [H _]. apply Z.eqb_eq in H.
  pose proof (digits2_bounds m) as [Hlo Hhi].
  set (d := Z.pos (digits2_pos m)) in *.
  split; [lia |]. split.
  - apply Z.lt_le_trans with (2 ^ d); [assumption |].
    apply Z.pow_le_mono_r; lia.
  - intros He. replace prec with d by lia. assumption.
Qed.

Lemma shl_align_value m e e' :
  e' <= e -> Z.pos (fst (shl_align m e e')) = Z.pos m * 2 ^ (e - e').
Proof.
  intros H. unfold shl_align. destruct (e' - e) as [| d | d] eqn:E; try lia.
  - replace (e - e') with 0 by lia. simpl. lia.
  - cbn [fst]. replace (e - e') with (Z.pos d) by lia. clear.
    induction d as [| d IH] using Pos.peano_ind.
    + cbn [Pos.iter]. rewrite (Pos2Z.inj_xO m). change (2 ^ 1) with 2. ring.
    + rewrite Pos.iter_succ, Pos2Z.inj_succ, Z.pow_succ_r by lia.
      rewrite (Pos2Z.inj_xO (Pos.iter xO m d)), IH. ring.
Qed.

End RoundingNonZero.

Section Subtraction.

Variables prec emax : Z.
Hypothesis prec_pos : 0 < prec.

Lemma SFsub_self x : SFfinite x -> SFsub prec emax x x = S754_zero false.
Proof.
  destruct x as [[|] | | | s m e]; simpl; try tauto. intros _.
  rewrite Z.sub_diag. reflexivity.
Qed.

Lemma SFsub_nonzero x y :
  SpecFloat.valid_binary prec emax x = true ->
  SpecFloat.valid_binary prec emax y = true ->
  SFltb y x = true -> SFnonzero (SFsub prec emax x y).
Proof.
  intros Vx Vy Hlt.
  destruct (SFltb_not_nan _ _ Hlt) as [Ny Nx].
  apply SFltb_rank in Hlt; try assumption. unfold rank_lt in Hlt.
  destruct x as [sx | [|] | | sx mx ex], y as [sy | [|] | | sy my ey];
    simpl in *; try exact I; try discriminate; try lia.
  destruct (bounded_canonical prec emax mx ex Vx) as [Ex [Ux Lx]].
  destruct (bounded_canonical prec emax my ey Vy) as [Ey [Uy Ly]].
  change (IntDef.Z.min ex ey) with (Z.min ex ey).
  apply binary_normalize_nonzero; [assumption | | lia].
  rewrite !shl_align_value by lia.
  assert (P1 : forall k, 0 <= k -> 1 <= 2 ^ k).
  { intros k Hk. change 1 with (2 ^ 0). apply Z.pow_le_mono_r; lia. }
  assert (P2 : forall k, 1 <= k -> 2 <= 2 ^ k).
  { intros k Hk. change 2 with (2 ^ 1) at 1. apply Z.pow_le_mono_r; lia. }
  assert (PP : 2 ^ prec = 2 * 2 ^ (prec - 1)).
  { rewrite <- Z.pow_succ_r by lia. f_equal. lia. }
  pose proof (P1 (ex - Z.min ex ey) ltac:(lia)) as Ha.
  pose proof (P1 (ey - Z.min ex ey) ltac:(lia)) as Hb.
  destruct (Z.lt_trichotomy ex ey) as [C | [C | C]].
  - pose proof (P2 (ey - Z.min ex ey) ltac:(lia)) as Hb2.
    replace (ex - Z.min ex ey) with 0 in * by lia. rewrite Z.pow_0_r, Z.mul_1_r.
    specialize (Ly ltac:(lia)).
    destruct sx, sy; cbn [cond_Zopp fst snd] in *; nia.
  - subst ey. rewrite Z.min_id, Z.sub_diag, Z.pow_0_r, !Z.mul_1_r.
    destruct sx, sy; cbn [cond_Zopp fst snd] in *; lia.
  - pose proof (P2 (ex - Z.min ex ey) ltac:(lia)) as Ha2.
    replace (ey - Z.min ex ey) with 0 in * by lia. rewrite Z.pow_0_r, Z.mul_1_r.
    specialize (Lx ltac:(lia)).
    destruct sx, sy; cbn [cond_Zopp fst snd] in *; nia.
Qed.

Lemma SFdiv_zero s y :
  SFnonzero y -> exists s', SFdiv prec emax (S754_zero s) y = S754_zero s'.
Proof. destruct y; simpl; try tauto; eauto. Qed.

End Subtraction.



Local Open Scope float_scope.


(** A record at the minimum gets the bottom of the range. *)
Lemma rescale_at_min (min_g max_g : float) :
  (min_g <? max_g) = true -> min_g <> neg_infinity ->
  15 + 85 * ((min_g - min_g) / (max_g - min_g)) = 15.
Proof.
  intros Hlt Hinf. apply Prim2SF_inj.
  rewrite add_spec, mul_spec, div_spec, !sub_spec.
  unfold SF64add, SF64mul, SF64div, SF64sub.
  rewrite ltb_spec in Hlt.
  pose proof (Prim2SF_valid min_g) as Vn. pose proof (Prim2SF_valid max_g) as Vx.
  assert (Hn : Prim2SF min_g <> S754_infinity true).
  { intros E. apply Hinf. apply Prim2SF_inj. rewrite E. reflexivity. }
  set (n := Prim2SF min_g) in *. set (x := Prim2SF max_g) in *.
  pose proof (SFsub_nonzero prec emax ltac:(reflexivity) x n Vx Vn Hlt) as Hd.
  assert (E0 : SFsub prec emax n n = S754_zero false).
  { destruct (SFltb_not_nan _ _ Hlt) as [Nn Nx].
    apply SFltb_rank in Hlt; try assumption. unfold rank_lt in Hlt.
    apply SFsub_self.
    destruct n as [? | [|] | | ? ? ?]; simpl in *; try exact I; try congruence.
    destruct x as [? | [|] | | [|] ? ?]; simpl in *; try discriminate; lia. }
  rewrite E0.
  destruct (SFdiv_zero prec emax false _ Hd) as [s' ->].
  set (c85 := Prim2SF 85). vm_compute in c85. subst c85.
  set (c15 := Prim2SF 15). vm_compute in c15. subst c15.
  reflexivity.
Qed.



End Binary64.

Import Binary64.
Local Open Scope float_scope.


Lemma fillna_not_nan (v x : float) : is_nan v = false -> is_nan (fillna v x) = false.
Proof. intros H. unfold fillna. destruct (is_nan x) eqn:E; assumption. Qed.

Lemma fillna_of_nan (v x : float) : is_nan x = true -> fillna v x = v.
Proof. intros H. unfold fillna. now rewrite H. Qed.



(** * The static renderer *)



Lemma year_panels_nth (df : DataFrame) (years : list Z) : forall (k i : nat),
  nth_error (year_panels df k years) i =
  option_map (year_panel df (k + i)) (nth_error years i).
Proof.
  induction years as [| y years IH]; intros k i; simpl.
  - now destruct i.
  - destruct i as [| i]; simpl.
    + now rewrite Nat.add_0_r.
    + rewrite IH. now rewrite Nat.add_succ_r.
Qed.

Lemma year_panels_length (df : DataFrame) (years : list Z) (k : nat) :
  List.length (year_panels df k years) = List.length years.
Proof. revert k. induction years; intros k; simpl; auto. Qed.


(** The figure the static renderer returns when there is a year to plot. *)
Lemma make_static_plot_axes (df : DataFrame) (years : list Z) (fig : Figure) :
  make_static_plot df years = Ok fig ->
  exists blanks : nat,
    fig_axes fig = year_panels df 0 years ++ repeat blank_panel blanks.
Proof.
  unfold make_static_plot. destruct (Nat.min 3 (List.length years)); [discriminate |].
  intros H. injection H as <-. eexists. reflexivity.
Qed.

Lemma make_static_plot_returns (df : DataFrame) (years : list Z) :
  years <> [] -> exists fig, make_static_plot df years = Ok fig.
Proof.
  intros H. unfold make_static_plot. destruct years as [| y years]; [congruence |].
  destruct (Nat.min 3 (List.length (y :: years))) eqn:E; [| eauto].
  simpl in E. lia.
Qed.

Lemma year_panel_markers (df : DataFrame) (i : nat) (y : Z) :
  p_markers (year_panel df i y) = map marker_of (filter (year_is y) df).
Proof. unfold year_panel. now destruct (filter (year_is y) df). Qed.



(** ** Ranking by distance from the origin *)

Lemma is_nan_square_sum_sqrt (x y : float) :
  is_nan x = false -> is_nan y = false -> is_nan (sqrt (x * x + y * y)) = false.
Proof.
  rewrite !is_nan_spec, sqrt_spec, add_spec, !mul_spec. intros Hx Hy.
  apply SFnonneg_not_nan, SFsqrt_nonneg, SFadd_nonneg;
    now apply SFmul_square_nonneg.
Qed.

(** The distance is never null. *)
Lemma dist_not_nan (r : Row) : is_nan (dist r) = false.
Proof.
  unfold dist. apply is_nan_square_sum_sqrt; now apply fillna_not_nan.
Qed.

Section SortValues.

Variable key : Row -> float.
Hypothesis key_not_nan : forall r, is_nan (key r) = false.

Lemma insert_desc_perm (r : Row) (l : list Row) :
  Permutation (insert_desc key r l) (r :: l).
Proof.
  induction l as [| r' l IH]; simpl; [reflexivity |].
  destruct (key r' <=? key r); [reflexivity |].
  rewrite IH. apply perm_swap.
Qed.


Lemma sort_values_desc_insertion (l : list Row) :
  sort_values_desc key l = fold_right (insert_desc key) [] l.
Proof.
  unfold sort_values_desc.
  assert (E1 : filter (fun r => negb (is_nan (key r))) l = l).
  { induction l as [| r l IH]; simpl; [reflexivity |].
    rewrite key_not_nan. simpl. now rewrite IH. }
  assert (E2 : filter (fun r => is_nan (key r)) l = []).
  { clear E1. induction l as [| r l IH]; simpl; [reflexivity |].
    rewrite key_not_nan. exact IH. }
  now rewrite E1, E2, app_nil_r.
Qed.

Lemma sort_values_desc_perm (l : list Row) :
  Permutation (sort_values_desc key l) l.
Proof.
  rewrite sort_values_desc_insertion.
  induction l as [| r l IH]; simpl; [reflexivity |].
  rewrite insert_desc_perm. now constructor.
Qed.


End SortValues.

Lemma annotate_filter (top : list Row) :
  annotate top =
  map (fun r => mkAnnotation (gdp_pct_change r) (enrollment_pct_change r)
                             (country_or_empty r))
      (filter (fun r => negb (is_nan (gdp_pct_change r)
                              || is_nan (enrollment_pct_change r))) top).
Proof.
  induction top as [| r top IH]; simpl; [reflexivity |].
  destruct (is_nan (gdp_pct_change r) || is_nan (enrollment_pct_change r));
    simpl; now rewrite IH.
Qed.

Lemma filter_length_le {A : Type} (f : A -> bool) (l : list A) :
  (List.length (filter f l) <= List.length l)%nat.
Proof.
  induction l as [| a l IH]; simpl; [lia |]. destruct (f a); simpl; lia.
Qed.


(** * The interactive renderer *)







Lemma combine_map_In {A B : Type} (f : A -> B) (l : list A) (a : A) (b : B) :
  In (a, b) (combine l (map f l)) -> In a l /\ b = f a.
Proof.
  induction l as [| x l IH]; simpl; [tauto |].
  intros [H | H]; [injection H as <- <-; auto |].
  destruct (IH H). auto.
Qed.

Lemma combine_map_fst {A B : Type} (f : A -> B) (l : list A) :
  map fst (combine l (map f l)) = l.
Proof. induction l as [| x l IH]; simpl; congruence. Qed.


Lemma size_column_rescale (sub : DataFrame) (g : float) (gs : list float) :
  gdp_nonnull sub = g :: gs ->
  (series_min g gs <? series_max g gs) = true ->
  size_column sub =
  map (fun r => 15 + 85 * ((fillna (series_min g gs) (gdp_numeric r)
                            - series_min g gs)
                           / (series_max g gs - series_min g gs))) sub.
Proof. unfold size_column. now intros -> ->. Qed.


Lemma make_interactive_plot_In (df : DataFrame) (years : list Z)
    (f : Row -> float) (r : Row) (s : float) :
  size_column (filter (year_isin years) df) = map f (filter (year_isin years) df) ->
  In (r, s) (make_interactive_plot df years) -> s = f r.
Proof.
  unfold make_interactive_plot. intros -> H. now apply combine_map_In in H.
Qed.

Lemma size_column_map (sub : DataFrame) :
  exists f : Row -> float, size_column sub = map f sub.
Proof.
  unfold size_column. destruct (gdp_nonnull sub) as [| g gs]; [eauto |].
  destruct (series_min g gs <? series_max g gs); eauto.
Qed.

Lemma make_interactive_plot_rows (df : DataFrame) (years : list Z) :
  map fst (make_interactive_plot df years) = filter (year_isin years) df.
Proof.
  unfold make_interactive_plot.
  destruct (size_column_map (filter (year_isin years) df)) as [f ->].
  apply combine_map_fst.
Qed.


(** C10, as the code has it.  When the maximum of the non-null
    [gdp_numeric] values of the selected records is greater than their
    minimum and the minimum is not minus infinity, a record with a null
    [gdp_numeric] is given the minimum and gets marker size exactly 15. *)
Theorem interactive_null_size (df : DataFrame) (years : list Z)
    (g : float) (gs : list float) (r : Row) (s : float) :
  gdp_nonnull (filter (year_isin years) df) = g :: gs ->
  (series_min g gs <? series_max g gs) = true ->
  series_min g gs <> neg_infinity ->
  In (r, s) (make_interactive_plot df years) ->
  is_nan (gdp_numeric r) = true ->
  fillna (series_min g gs) (gdp_numeric r) = series_min g gs /\ s = 15.
Proof.
  intros E Hlt Hinf H Hr.
  apply (make_interactive_plot_In _ _ _ _ _ (size_column_rescale _ g gs E Hlt)) in H.
  rewrite (fillna_of_nan _ _ Hr) in *. split; [reflexivity |].
  rewrite H. now apply rescale_at_min.
Qed.

(** * The theorems at sample inputs *)

Lemma choose_years_explicit_witness :
  [2019; 2099]%Z <> [] /\
  choose_years (Some [2019; 2099]%Z) sample_table = Ok [2019%Z].
Proof.
  split; [discriminate |].
  apply (choose_years_explicit sample_table [2019; 2099]%Z);
    [discriminate | reflexivity | reflexivity | reflexivity].
Defined.

Lemma choose_years_present_witness :
  choose_years None sample_table = Ok [2019; 2020]%Z /\
  year_occurs sample_table 2020 = true.
Proof.
  split; [reflexivity |].
  apply (choose_years_present None sample_table [2019; 2020]%Z eq_refl).
  simpl. auto.
Defined.




Lemma interactive_null_size_witness :
  gdp_nonnull (filter (year_isin [2019; 2020]%Z) sample_table) = [0; 50; 100] /\
  (series_min 0 [50; 100] <? series_max 0 [50; 100]) = true /\
  series_min 0 [50; 100] <> neg_infinity /\
  In (sample_row "Fiji" 2020 nan 0 0, 15)
     (make_interactive_plot sample_table [2019; 2020]%Z) /\
  is_nan (gdp_numeric (sample_row "Fiji" 2020 nan 0 0)) = true /\
  fillna (series_min 0 [50; 100]) (gdp_numeric (sample_row "Fiji" 2020 nan 0 0))
    = series_min 0 [50; 100].
Proof.
  assert (Hinf : series_min 0 [50; 100] <> neg_infinity).
  { intros E. apply (f_equal is_infinity) in E. discriminate E. }
  assert (Hin : In (sample_row "Fiji" 2020 nan 0 0, 15)
                   (make_interactive_plot sample_table [2019; 2020]%Z)).
  { simpl. auto. }
  repeat (split; [first [reflexivity | assumption] |]).
  apply (interactive_null_size sample_table [2019; 2020]%Z 0 [50; 100]
           (sample_row "Fiji" 2020 nan 0 0) 15 eq_refl eq_refl Hinf Hin eq_refl).
Defined.

(** * Inputs on which the interactive sizes leave the range *)


(** C10 does not hold as stated: when the minimum is minus infinity, the
    record with a null [gdp_numeric] is given minus infinity, and its size
    is NaN, not 15. *)
Lemma interactive_null_size_minus_infinity :
  gdp_nonnull (filter (year_isin [2020]%Z) table_minus_infinity)
    = [neg_infinity; 0]
  /\ (series_min neg_infinity [0] <? series_max neg_infinity [0]) = true
  /\ neg_infinity - neg_infinity = nan
  /\ make_interactive_plot table_minus_infinity [2020]%Z
     = combine table_minus_infinity [nan; nan; nan]
  /\ is_nan (gdp_numeric (sample_row "Cuba" 2020 nan 1 1)) = true
  /\ In (sample_row "Cuba" 2020 nan 1 1, nan)
        (make_interactive_plot table_minus_infinity [2020]%Z)
  /\ nan <> 15.
Proof.
  repeat split; try reflexivity.
  - simpl. auto.
  - intros E. apply (f_equal is_nan) in E. discriminate E.
Qed.

Local Close Scope float_scope.

(** * The loader, further *)

Lemma mapM_Forall2 {A B : Type} (f : A -> result B) (l : list A) (bs : list B) :
  mapM f l = Ok bs <-> Forall2 (fun a b => f a = Ok b) l bs.
Proof.
  revert bs. induction l as [| a l IH]; intros bs; simpl.
  - split.
    + intros H. injection H as <-. constructor.
    + intros H. inversion H. reflexivity.
  - split.
    + destruct (f a) as [b | e] eqn:Ea; simpl; [| discriminate].
      destruct (mapM f l) as [bs' | e] eqn:El; simpl; [| discriminate].
      intros H. injection H as <-. constructor; [assumption |]. now apply IH.
    + intros H. inversion H as [| a' b l' bs' Hab Hrest]; subst.
      rewrite Hab. simpl. apply IH in Hrest. rewrite Hrest. reflexivity.
Qed.




Lemma load_and_prepare_Ok (fs : FileSystem) (path : string) (df : DataFrame) :
  snd (load_and_prepare fs path) = Ok df ->
  exists raw,
    fs path = Some raw /\ has_column "year" raw = true /\
    Forall2 (fun r row =>
               exists y, astype_Int64 (to_numeric (year_cell raw r)) = Ok y
                         /\ row = prepare_row raw r y)
            (raw_rows raw) df.
Proof.
  unfold load_and_prepare. destruct (fs path) as [raw |]; [| discriminate].
  destruct (has_column "year" raw) eqn:Hyear; [| discriminate]. simpl.
  intros H. exists raw. split; [reflexivity | split; [exact Hyear |]].
  apply mapM_Forall2 in H. revert H. apply Forall2_impl.
  intros r row Hrow.
  destruct (astype_Int64 (to_numeric (year_cell raw r))) as [y | e];
    simpl in Hrow; [| discriminate].
  injection Hrow as <-. eauto.
Qed.

(** X2.  A table the loader returns has one record for each record of the
    CSV, in the same order; the record keeps the country cell, an integer
    year stays, and a year that is text or missing becomes the null year
    instead of an error. *)
Theorem load_and_prepare_records (fs : FileSystem) (path : string)
    (raw : RawFrame) (df : DataFrame) :
  fs path = Some raw ->
  snd (load_and_prepare fs path) = Ok df ->
  List.length df = List.length (raw_rows raw)
  /\ forall (i : nat) (r : list cell) (row : Row),
       nth_error (raw_rows raw) i = Some r -> nth_error df i = Some row ->
       country row = cell_at raw "country" r
       /\ (forall z, year_cell raw r = CInt z -> year row = Some z)
       /\ (forall s, year_cell raw r = CStr s -> year row = None)
       /\ (year_cell raw r = CNull -> year row = None).
Proof.
  intros Hfile H. apply load_and_prepare_Ok in H.
  destruct H as [raw' [Hfile' [_ HF]]].
  rewrite Hfile in Hfile'. injection Hfile' as <-.
  split; [symmetry; eapply Forall2_length; eassumption |].
  intros i r row Hr Hrow.
  assert (Hi : exists y, astype_Int64 (to_numeric (year_cell raw r)) = Ok y
                         /\ row = prepare_row raw r y).
  { clear -HF Hr Hrow. revert i Hr Hrow.
    induction HF as [| r0 row0 l l' H0 HF IH]; intros [| i]; simpl; try discriminate.
    - intros Hr Hrow. injection Hr as <-. injection Hrow as <-. exact H0.
    - apply IH. }
  destruct Hi as [y [Hy ->]]. simpl. split; [reflexivity |].
  split; [| split].
  - intros z Ez. rewrite Ez in Hy. simpl in Hy. congruence.
  - intros s Es. rewrite Es in Hy. simpl in Hy. congruence.
  - intros En. rewrite En in Hy. simpl in Hy. congruence.
Qed.

(** The column check. *)

Lemma string_length_append (a b : string) :
  String.length (a ++ b) = (String.length a + String.length b)%nat.
Proof. induction a as [| c a IH]; simpl; congruence. Qed.

Lemma append_cancel_r (a b s : string) : (a ++ s = b ++ s)%string -> a = b.
Proof.
  revert b. induction a as [| c a IH]; intros [| d b] H; simpl in *.
  - reflexivity.
  - apply (f_equal String.length) in H. simpl in H.
    rewrite string_length_append in H. lia.
  - apply (f_equal String.length) in H. simpl in H.
    rewrite string_length_append in H. lia.
  - injection H as -> H. f_equal. now apply IH.
Qed.

Lemma warning_inj (c c' : string) : warning c = warning c' -> c = c'.
Proof.
  unfold warning. intros H. simpl in H.
  repeat (injection H as H). now apply append_cancel_r in H.
Qed.

(** X3.  For a file that exists, the loader prints a warning for a column
    exactly when the column is one of the seven expected ones and the CSV
    lacks it; it prints nothing exactly when the seven columns are all
    there, and never more than seven lines. *)
Theorem load_and_prepare_warnings (fs : FileSystem) (path : string)
    (raw : RawFrame) :
  fs path = Some raw ->
  (forall c, In (warning c) (fst (load_and_prepare fs path)) <->
             In c EXPECTED_COLUMNS /\ has_column c raw = false)
  /\ (fst (load_and_prepare fs path) = [] <->
      forall c, In c EXPECTED_COLUMNS -> has_column c raw = true)
  /\ (List.length (fst (load_and_prepare fs path)) <= 7)%nat.
Proof.
  intros Hfile. rewrite (load_and_prepare_prints fs path raw Hfile).
  split; [| split].
  - intros c. rewrite in_map_iff. split.
    + intros [c' [E Hc']]. apply warning_inj in E. subst c'.
      apply filter_In in Hc'. destruct Hc' as [Hin Hc].
      now apply negb_true_iff in Hc.
    + intros [Hin Hc]. exists c. split; [reflexivity |].
      apply filter_In. split; [assumption |]. now rewrite Hc.
  - split.
    + intros H c Hc. apply map_eq_nil in H.
      pose proof (proj1 (filter_nil_iff _ _) H c Hc) as Hn.
      now apply negb_false_iff in Hn.
    + intros H. replace (filter _ EXPECTED_COLUMNS) with (@nil string); [reflexivity |].
      symmetry. apply filter_nil_iff. intros c Hc. now rewrite (H c Hc).
  - rewrite length_map.
    etransitivity; [apply filter_length_le | simpl; lia].
Qed.

Lemma cell_at_absent (raw : RawFrame) (c : string) (r : list cell) :
  has_column c raw = false -> cell_at raw c r = None.
Proof.
  unfold has_column, cell_at. now destruct (index_of c (raw_columns raw)).
Qed.

Lemma cell_at_present (raw : RawFrame) (c : string) (r : list cell) :
  has_column c raw = true -> exists x, cell_at raw c r = Some x.
Proof.
  unfold has_column, cell_at.
  destruct (index_of c (raw_columns raw)); [eauto | discriminate].
Qed.

(** X4.  A column the CSV lacks is lacking on every record of the loaded
    table: the numeric columns derived from an absent column are null on
    every record, and [country] and [both_increase] are absent on every
    record or on none. *)
Theorem load_and_prepare_absent_columns (fs : FileSystem) (path : string)
    (raw : RawFrame) (df : DataFrame) (row : Row) :
  fs path = Some raw ->
  snd (load_and_prepare fs path) = Ok df ->
  In row df ->
  (has_column "gdp" raw = false -> is_nan (gdp_numeric row) = true)
  /\ (has_column "enrollment" raw = false ->
      is_nan (enrollment_numeric row) = true)
  /\ (has_column "gdp_pct_change" raw = false ->
      is_nan (gdp_pct_change row) = true)
  /\ (has_column "enrollment_pct_change" raw = false ->
      is_nan (enrollment_pct_change row) = true)
  /\ (country row = None <-> has_column "country" raw = false)
  /\ (both_increase row = None <-> has_column "both_increase" raw = false).
Proof.
  intros Hfile H Hrow. apply load_and_prepare_Ok in H.
  destruct H as [raw' [Hfile' [_ HF]]].
  rewrite Hfile in Hfile'. injection Hfile' as <-.
  assert (Hi : exists r y, row = prepare_row raw r y).
  { clear -HF Hrow. induction HF as [| r0 row0 l l' H0 HF IH]; [destruct Hrow |].
    destruct Hrow as [<- | Hrow]; [| auto].
    destruct H0 as [y [_ ->]]. eauto. }
  destruct Hi as [r [y ->]]. simpl. unfold numeric_or_nan.
  repeat split.
  - intros Hc. now rewrite (cell_at_absent _ _ r Hc).
  - intros Hc. now rewrite (cell_at_absent _ _ r Hc).
  - intros Hc. now rewrite (cell_at_absent _ _ r Hc).
  - intros Hc. now rewrite (cell_at_absent _ _ r Hc).
  - intros Hn. destruct (has_column "country" raw) eqn:Hc; [| reflexivity].
    destruct (cell_at_present _ _ r Hc) as [x Hx]. congruence.
  - intros Hc. now apply cell_at_absent.
  - intros Hn. destruct (has_column "both_increase" raw) eqn:Hc; [| reflexivity].
    destruct (cell_at_present _ _ r Hc) as [x Hx]. rewrite Hx in Hn. discriminate.
  - intros Hc. now rewrite (cell_at_absent _ _ r Hc).
Qed.

(** * The year selector, further *)

Lemma strict_sorted_ext (l l' : list Z) :
  StronglySorted Z.lt l -> StronglySorted Z.lt l' ->
  (forall y, In y l <-> In y l') -> l = l'.
Proof.
  intros Hl. revert l'. induction Hl as [| x l Hl IH Hx]; intros l' Hl' Hin.
  - destruct l' as [| x' l']; [reflexivity |].
    destruct (proj2 (Hin x') (or_introl eq_refl)).
  - destruct Hl' as [| x' l' Hl' Hx'].
    + destruct (proj1 (Hin x) (or_introl eq_refl)).
    + rewrite Forall_forall in Hx, Hx'.
      assert (x = x').
      { destruct (proj1 (Hin x) (or_introl eq_refl)) as [E | H1]; [auto |].
        destruct (proj2 (Hin x') (or_introl eq_refl)) as [E | H2]; [auto |].
        specialize (Hx _ H2). specialize (Hx' _ H1). lia. }
      subst x'. f_equal. apply IH; [assumption |].
      intros y. split; intros Hy.
      * destruct (proj1 (Hin y) (or_intror Hy)) as [E | H1]; [| assumption].
        subst y. specialize (Hx _ Hy). lia.
      * destruct (proj2 (Hin y) (or_intror Hy)) as [E | H1]; [| assumption].
        subst y. specialize (Hx' _ Hy). lia.
Qed.

Lemma yrs_ext (df df' : DataFrame) :
  (forall y, year_occurs df y = year_occurs df' y) ->
  sorted (unique (dropna (map year df))) =
  sorted (unique (dropna (map year df'))).
Proof.
  intros H. apply strict_sorted_ext; try apply yrs_strict.
  intros y. now rewrite !yrs_In, H.
Qed.

(** X5.  The selection depends on the table only through the set of years
    that occur in it: two tables with the same years, whatever their
    records and their order, get the same answer, error included. *)
Theorem choose_years_same_years (YEARS : option (list Z)) (df df' : DataFrame) :
  (forall y, year_occurs df y = year_occurs df' y) ->
  choose_years YEARS df = choose_years YEARS df'.
Proof.
  intros H. unfold choose_years. now rewrite (yrs_ext df df' H).
Qed.

Lemma last_n_nil {A : Type} (n : nat) (l : list A) :
  last_n n l = [] -> l = [].
Proof.
  destruct n as [| n]; simpl; [auto |]. intros H.
  destruct l as [| a l]; [reflexivity |].
  apply (f_equal (@List.length A)) in H. rewrite length_skipn in H.
  cbn [List.length] in H. lia.
Qed.

Lemma yrs_nil (df : DataFrame) :
  sorted (unique (dropna (map year df))) = [] <->
  forall y, year_occurs df y = false.
Proof.
  split.
  - intros H y. destruct (year_occurs df y) eqn:E; [| reflexivity].
    apply yrs_In in E. rewrite H in E. destruct E.
  - intros H. destruct (sorted (unique (dropna (map year df)))) as [| y l] eqn:E;
      [reflexivity |].
    assert (Hy : year_occurs df y = true) by (apply yrs_In; rewrite E; now left).
    rewrite H in Hy. discriminate.
Qed.

(** X6.  [choose_years] returns the empty list exactly when no explicit
    year is configured and the table has no non-null year; with a non-empty
    explicit list it raises instead of returning an empty selection. *)
Theorem choose_years_empty_selection (YEARS : option (list Z)) (df : DataFrame) :
  choose_years YEARS df = Ok [] <->
  (YEARS = None \/ YEARS = Some []) /\ forall y, year_occurs df y = false.
Proof.
  destruct YEARS as [[| y0 ys] |].
  - change (choose_years (Some []) df) with (choose_years None df).
    rewrite choose_years_auto_eq. split.
    + intros H. injection H as H. apply (last_n_nil MAX_PANELS) in H.
      split; [now right | now apply yrs_nil].
    + intros [_ H]. apply yrs_nil in H. now rewrite H.
  - rewrite choose_years_explicit_eq. split.
    + destruct (filter (year_occurs df) (y0 :: ys)); discriminate.
    + intros [[H | H] _]; discriminate.
  - rewrite choose_years_auto_eq. split.
    + intros H. injection H as H. apply (last_n_nil MAX_PANELS) in H.
      split; [now left | now apply yrs_nil].
    + intros [_ H]. apply yrs_nil in H. now rewrite H.
Qed.

Lemma last_app_nonempty {A : Type} (l1 l2 : list A) (d : A) :
  l2 <> [] -> last (l1 ++ l2) d = last l2 d.
Proof.
  intros H. induction l1 as [| a l1 IH]; [reflexivity |].
  simpl. rewrite IH. destruct (l1 ++ l2) eqn:E; [| reflexivity].
  apply app_eq_nil in E. destruct E. contradiction.
Qed.

Lemma last_In {A : Type} (l : list A) (d : A) : l <> [] -> In (last l d) l.
Proof.
  induction l as [| a l IH]; [congruence |]. intros _.
  destruct l as [| b l]; [now left |]. right. apply IH. discriminate.
Qed.

Lemma sorted_last_greatest (l : list Z) (d z : Z) :
  StronglySorted Z.lt l -> In z l -> z <= last l d.
Proof.
  induction 1 as [| x l Hl IH Hx]; [intros [] |].
  intros Hz. destruct l as [| b l].
  - destruct Hz as [-> | []]. simpl. lia.
  - change (last (x :: b :: l) d) with (last (b :: l) d).
    destruct Hz as [-> | Hz]; [| auto].
    rewrite Forall_forall in Hx.
    assert (Hb : b :: l <> []) by discriminate.
    specialize (Hx (last (b :: l) d) (last_In (b :: l) d Hb)). lia.
Qed.

(** X7.  With no explicit list, the most recent year of the table is always
    selected, and it comes last. *)
Theorem choose_years_latest (df : DataFrame) (y : Z) :
  year_occurs df y = true ->
  (forall z, year_occurs df z = true -> z <= y) ->
  exists res, choose_years None df = Ok res /\ res <> [] /\ last res 0 = y.
Proof.
  intros Hy Hmax. rewrite choose_years_auto_eq.
  set (yrs := sorted (unique (dropna (map year df)))).
  exists (last_n MAX_PANELS yrs). split; [reflexivity |].
  assert (Hne : yrs <> []).
  { intros E. apply yrs_In in Hy. fold yrs in Hy. rewrite E in Hy. destruct Hy. }
  assert (Hres : last_n MAX_PANELS yrs <> []).
  { intros E. now apply last_n_nil in E. }
  split; [assumption |].
  destruct (last_n_suffix MAX_PANELS yrs) as [front [Hsplit _]].
  assert (Hlast : last (last_n MAX_PANELS yrs) 0 = last yrs 0).
  { rewrite Hsplit at 2. symmetry. now apply last_app_nonempty. }
  rewrite Hlast.
  pose proof (sorted_last_greatest yrs 0 y (yrs_strict df) (proj2 (yrs_In df y) Hy)).
  assert (Hocc : year_occurs df (last yrs 0) = true)
    by (apply yrs_In; now apply last_In).
  specialize (Hmax _ Hocc). lia.
Qed.

(** * The static renderer, further *)

(** X8.  The static renderer raises exactly when it is given no year, and
    then it is the division by zero of the row count. *)
Theorem make_static_plot_raises (df : DataFrame) (years : list Z) (e : exn) :
  make_static_plot df years = Raise e <-> years = [] /\ e = ZeroDivisionError.
Proof.
  unfold make_static_plot. destruct years as [| y years]; simpl.
  - split; [intros H; injection H as <-; auto | intros [_ ->]; reflexivity].
  - destruct (List.length years) as [| [| n]]; simpl;
      (split; [discriminate | intros [H _]; discriminate]).
Qed.

Lemma ceil_grid (n c : nat) :
  (0 < c)%nat ->
  (n <= (n + c - 1) / c * c < n + c)%nat.
Proof.
  intros Hc. pose proof (Nat.div_mod_eq (n + c - 1) c) as E.
  pose proof (Nat.mod_upper_bound (n + c - 1) c ltac:(lia)) as Hr.
  nia.
Qed.

(** X9.  The grid of the static figure has [min(3, n)] columns for [n]
    years and the least number of rows that holds [n] panels: the axes are
    the [n] year panels, in the order of the years, followed by fewer than
    one row of blank axes. *)
Theorem make_static_plot_grid (df : DataFrame) (years : list Z) (fig : Figure) :
  make_static_plot df years = Ok fig ->
  let n := List.length years in
  fig_cols fig = Nat.min 3 n
  /\ (1 <= fig_cols fig <= 3)%nat
  /\ (n <= fig_rows fig * fig_cols fig < n + fig_cols fig)%nat
  /\ List.length (fig_axes fig) = (fig_rows fig * fig_cols fig)%nat
  /\ (forall j y, nth_error years j = Some y ->
                  nth_error (fig_axes fig) j = Some (year_panel df j y))
  /\ (forall j, (n <= j < fig_rows fig * fig_cols fig)%nat ->
                nth_error (fig_axes fig) j = Some blank_panel).
Proof.
  unfold make_static_plot. intros H. cbv zeta in *.
  set (n := List.length years) in *.
  destruct (Nat.min 3 n) as [| c] eqn:Ec; [discriminate |].
  injection H as <-. cbn [fig_cols fig_rows fig_axes].
  change (fst (Nat.divmod (n + S c - 1) c 0 c)) with ((n + S c - 1) / S c)%nat.
  pose proof (ceil_grid n (S c) ltac:(lia)) as Hg.
  split; [reflexivity |]. split; [lia |]. split; [exact Hg |].
  split; [| split].
  - rewrite length_app, year_panels_length, repeat_length. fold n. lia.
  - intros j y Hj. rewrite nth_error_app1.
    + now rewrite year_panels_nth, Hj.
    + rewrite year_panels_length. apply nth_error_Some. congruence.
  - intros j Hj. rewrite nth_error_app2; rewrite year_panels_length; fold n; [| lia].
    apply nth_error_repeat. lia.
Qed.

(** X10.  At most one panel of the static figure carries the legend: the
    first one, and only when its year has records. *)
Theorem make_static_plot_legend (df : DataFrame) (years : list Z) (fig : Figure)
    (j : nat) (p : Panel) :
  make_static_plot df years = Ok fig ->
  nth_error (fig_axes fig) j = Some p ->
  p_legend p = true ->
  j = O /\ exists y, nth_error years 0 = Some y /\ filter (year_is y) df <> [].
Proof.
  intros H Hp Hl. destruct (make_static_plot_axes _ _ _ H) as [blanks E].
  rewrite E in Hp.
  destruct (Nat.lt_ge_cases j (List.length years)) as [Hj | Hj].
  - rewrite nth_error_app1 in Hp by now rewrite year_panels_length.
    rewrite year_panels_nth in Hp. simpl in Hp.
    destruct (nth_error years j) as [y |] eqn:Ey; [| discriminate].
    injection Hp as <-. unfold year_panel in Hl.
    destruct (filter (year_is y) df) as [| r sub] eqn:Es; [discriminate |].
    simpl in Hl. apply Nat.eqb_eq in Hl. subst j.
    split; [reflexivity |]. exists y. split; [assumption |]. rewrite Es. discriminate.
  - rewrite nth_error_app2 in Hp by now rewrite year_panels_length.
    apply nth_error_In, repeat_spec in Hp. subst p. discriminate.
Qed.

Lemma filter_length_disjoint {A : Type} (f g : A -> bool) (l : list A) :
  (forall a, In a l -> f a && g a = false) ->
  List.length (filter (fun a => f a || g a) l) =
  (List.length (filter f l) + List.length (filter g l))%nat.
Proof.
  induction l as [| a l IH]; intros H; simpl; [reflexivity |].
  pose proof (H a (or_introl eq_refl)) as Ha.
  assert (IH' := IH (fun b Hb => H b (or_intror Hb))).
  destruct (f a), (g a); simpl in *; try discriminate; rewrite IH'; lia.
Qed.

Lemma year_panels_markers (df : DataFrame) (years : list Z) : forall k,
  NoDup years ->
  list_sum (map (fun p => List.length (p_markers p)) (year_panels df k years)) =
  List.length (filter (year_isin years) df).
Proof.
  induction years as [| y years IH]; intros k Hnd; simpl.
  - induction df as [| r df IHdf]; simpl; [reflexivity |].
    unfold year_isin at 1. simpl. destruct (year r); exact IHdf.
  - inversion Hnd as [| ? ? Hy Hnd']; subst.
    rewrite IH by assumption. rewrite year_panel_markers, length_map.
    rewrite <- filter_length_disjoint.
    + f_equal. apply filter_ext. intros r. unfold year_isin, year_is, py_in.
      destruct (year r) as [v |]; [| reflexivity]. simpl.
      now rewrite (Z.eqb_sym v y).
    + intros r _. unfold year_isin, year_is.
      destruct (year r) as [v |]; [| reflexivity].
      destruct (Z.eqb_spec v y) as [-> | Hne]; [| reflexivity].
      simpl. apply py_in_false. assumption.
Qed.

Lemma size_column_length (sub : DataFrame) :
  List.length (size_column sub) = List.length sub.
Proof. destruct (size_column_map sub) as [f ->]. apply length_map. Qed.

(** X11.  When no year is listed twice, the static figure and the
    interactive plot show the same number of points: one for each record
    whose year is selected. *)
Theorem static_and_interactive_points (df : DataFrame) (years : list Z)
    (fig : Figure) :
  make_static_plot df years = Ok fig ->
  NoDup years ->
  total_markers fig = List.length (make_interactive_plot df years)
  /\ total_markers fig = List.length (filter (year_isin years) df).
Proof.
  intros H Hnd. destruct (make_static_plot_axes _ _ _ H) as [blanks E].
  assert (Ht : total_markers fig = List.length (filter (year_isin years) df)).
  { unfold total_markers. rewrite E, map_app, list_sum_app.
    rewrite year_panels_markers by assumption.
    replace (list_sum (map _ (repeat blank_panel blanks))) with O; [lia |].
    clear. induction blanks; simpl; auto. }
  split; [| exact Ht]. rewrite Ht. unfold make_interactive_plot.
  rewrite length_combine, size_column_length. lia.
Qed.

Lemma choose_years_Ok_occur (YEARS : option (list Z)) (df : DataFrame)
    (years : list Z) (y : Z) :
  choose_years YEARS df = Ok years -> In y years -> year_occurs df y = true.
Proof.
  intros H Hy. destruct YEARS as [[| z l] |].
  - change (choose_years None df = Ok years) in H.
    rewrite choose_years_auto_eq in H. injection H as <-.
    exact (last_n_yrs_occur df MAX_PANELS y Hy).
  - rewrite choose_years_explicit_eq in H.
    assert (years = filter (year_occurs df) (z :: l))
      by (destruct (filter (year_occurs df) (z :: l)); congruence).
    subst years. apply filter_In in Hy. tauto.
  - rewrite choose_years_auto_eq in H. injection H as <-.
    exact (last_n_yrs_occur df MAX_PANELS y Hy).
Qed.

Lemma year_occurs_filter (df : DataFrame) (y : Z) :
  year_occurs df y = true <-> filter (year_is y) df <> [].
Proof.
  unfold year_occurs. rewrite existsb_exists. split.
  - intros [r [Hr Hy]] E.
    assert (Hin : In r (filter (year_is y) df)) by (apply filter_In; auto).
    rewrite E in Hin. destruct Hin.
  - intros H. destruct (filter (year_is y) df) as [| r sub] eqn:E; [congruence |].
    exists r. apply filter_In. rewrite E. now left.
Qed.

(** X12.  In [main] the years given to the static renderer are the ones
    [choose_years] returns, so the "(no data)" placeholder never appears:
    every axes of the figure is either a blank one past the last year, or
    the panel of a year, titled with the year, with its axis on and at
    least one marker. *)
Theorem select_and_plot_panels (YEARS : option (list Z)) (df : DataFrame)
    (fig : Figure) :
  select_and_plot YEARS df = Ok fig ->
  exists years,
    choose_years YEARS df = Ok years
    /\ (forall j y, nth_error years j = Some y ->
          exists p, nth_error (fig_axes fig) j = Some p
                    /\ p_title p = Some (str_int y)
                    /\ p_axis_off p = false
                    /\ p_markers p <> [])
    /\ (forall p, In p (fig_axes fig) ->
          p = blank_panel \/ (p_axis_off p = false /\ p_markers p <> [])).
Proof.
  unfold select_and_plot. destruct (choose_years YEARS df) as [years | e] eqn:Ey;
    simpl; [| discriminate].
  intros H. exists years. split; [reflexivity |].
  destruct (make_static_plot_axes _ _ _ H) as [blanks E].
  assert (Hpan : forall j y, In y years ->
            p_title (year_panel df j y) = Some (str_int y)
            /\ p_axis_off (year_panel df j y) = false
            /\ p_markers (year_panel df j y) <> []).
  { intros j y Hy. pose proof (choose_years_Ok_occur _ _ _ _ Ey Hy) as Ho.
    apply year_occurs_filter in Ho. unfold year_panel.
    destruct (filter (year_is y) df) as [| r sub]; [congruence |].
    simpl. repeat split. discriminate. }
  split.
  - intros j y Hj. exists (year_panel df j y). split.
    + rewrite E, nth_error_app1.
      * now rewrite year_panels_nth, Hj.
      * rewrite year_panels_length. apply nth_error_Some. congruence.
    + apply Hpan. eapply nth_error_In; eassumption.
  - intros p Hp. rewrite E in Hp. apply in_app_or in Hp.
    destruct Hp as [Hp | Hp].
    + right. apply In_nth_error in Hp. destruct Hp as [j Hj].
      rewrite year_panels_nth in Hj. simpl in Hj.
      destruct (nth_error years j) as [y |] eqn:Eyj; [| discriminate].
      injection Hj as <-. apply Hpan. eapply nth_error_In; eassumption.
    + left. now apply repeat_spec in Hp.
Qed.

(** X13.  Selecting the years and plotting them fails in two ways only:
    with the division by zero of the static renderer, when no explicit
    year is configured and the table has no non-null year; and with the
    "no requested years" error, when years are configured and none of
    them occurs in the table. *)
Theorem select_and_plot_raises (YEARS : option (list Z)) (df : DataFrame)
    (e : exn) :
  select_and_plot YEARS df = Raise e <->
  ((YEARS = None \/ YEARS = Some []) /\ (forall y, year_occurs df y = false)
   /\ e = ZeroDivisionError)
  \/ (exists y0 ys, YEARS = Some (y0 :: ys)
        /\ (forall y, In y (y0 :: ys) -> year_occurs df y = false)
        /\ e = NO_YEARS).
Proof.
  unfold select_and_plot.
  assert (Hauto : (years <- choose_years None df ;; make_static_plot df years) = Raise e
                  <-> (forall y, year_occurs df y = false) /\ e = ZeroDivisionError).
  { rewrite choose_years_auto_eq. cbn [bind].
    set (yrs := sorted (unique (dropna (map year df)))).
    split.
    - intros H. destruct (last_n MAX_PANELS yrs) as [| y l] eqn:El.
      + apply (last_n_nil MAX_PANELS) in El.
        change (make_static_plot df []) with (@Raise Figure ZeroDivisionError) in H.
        injection H as <-. split; [now apply yrs_nil | reflexivity].
      + destruct (make_static_plot_returns df (y :: l)) as [fig Hf]; [discriminate |].
        rewrite Hf in H. discriminate.
    - intros [H ->]. apply yrs_nil in H. fold yrs in H. rewrite H. reflexivity. }
  destruct YEARS as [[| y0 ys] |].
  - change (choose_years (Some []) df) with (choose_years None df).
    rewrite Hauto. split.
    + intros [H ->]. left. auto.
    + intros [[_ [H ->]] | [y0 [ys [H _]]]]; [auto | discriminate].
  - rewrite choose_years_explicit_eq. split.
    + destruct (filter (year_occurs df) (y0 :: ys)) as [| y l] eqn:Ef; simpl.
      * intros H. injection H as <-. right. exists y0, ys.
        split; [reflexivity |]. split; [| reflexivity].
        exact (proj1 (filter_nil_iff _ _) Ef).
      * intros H.
        destruct (make_static_plot_returns df (y :: l)) as [fig Hf]; [discriminate |].
        rewrite Hf in H. discriminate.
    + intros [[[H | H] _] | [z0 [zs [H [Hn ->]]]]]; try discriminate.
      injection H as <- <-. apply filter_nil_iff in Hn. now rewrite Hn.
  - rewrite Hauto. split.
    + intros [H ->]. left. auto.
    + intros [[_ [H ->]] | [y0 [ys [H _]]]]; [auto | discriminate].
Qed.

Local Open Scope float_scope.

Lemma firstn_incl {A : Type} (n : nat) (l : list A) (a : A) :
  In a (firstn n l) -> In a l.
Proof.
  intros H. rewrite <- (firstn_skipn n l). apply in_or_app. now left.
Qed.

(** X14.  Every annotation of a panel sits on a marker of that panel: it is
    drawn at the two percent changes of a record of the year, which are not
    null, and its text is the country of that record. *)
Theorem annotation_on_marker (df : DataFrame) (i : nat) (y : Z) (a : Annotation) :
  In a (p_texts (year_panel df i y)) ->
  exists r,
    In r (filter (year_is y) df)
    /\ In (marker_of r) (p_markers (year_panel df i y))
    /\ a_x a = m_x (marker_of r) /\ a_y a = m_y (marker_of r)
    /\ a_text a = country_or_empty r
    /\ is_nan (a_x a) = false /\ is_nan (a_y a) = false.
Proof.
  rewrite year_panel_markers. unfold year_panel.
  destruct (filter (year_is y) df) as [| r0 sub0] eqn:Es; [intros [] |].
  cbn [p_texts]. rewrite annotate_filter, in_map_iff.
  intros [r [<- Hr]]. apply filter_In in Hr. destruct Hr as [Htop Hnn].
  apply negb_true_iff, orb_false_iff in Hnn. destruct Hnn as [Hx Hy].
  apply firstn_incl in Htop.
  apply (Permutation_in _ (sort_values_desc_perm dist dist_not_nan _)) in Htop.
  exists r. repeat split; try assumption. now apply in_map.
Qed.

Lemma is_nan_opp (x : float) : is_nan (- x) = is_nan x.
Proof. rewrite !is_nan_spec, opp_spec. now destruct (Prim2SF x). Qed.

Lemma abs_opp (x : float) : abs (- x) = abs x.
Proof.
  apply Prim2SF_inj. rewrite !abs_spec, opp_spec. now destruct (Prim2SF x).
Qed.


(** X15.  The static marker size depends on the magnitude of [gdp_numeric]
    only: two records whose values are opposite get the same size. *)
Theorem static_size_opposite (r r' : Row) :
  gdp_numeric r' = - gdp_numeric r -> static_size r' = static_size r.
Proof.
  intros E. unfold static_size, fillna. rewrite E, is_nan_opp.
  destruct (is_nan (gdp_numeric r)); [reflexivity |]. now rewrite abs_opp.
Qed.




(** * The interactive renderer, further *)

(** X17.  The interactive plot depends on the years only as a set: their
    order and repetitions do not matter, a year absent from the table adds
    nothing, and a record with a null year is never plotted. *)
Theorem make_interactive_plot_years (df : DataFrame) (years years' : list Z) :
  (forall y, In y years <-> In y years') ->
  make_interactive_plot df years = make_interactive_plot df years'
  /\ (forall r s, In (r, s) (make_interactive_plot df years) ->
        exists y, year r = Some y /\ In y years)
  /\ (forall y, year_occurs df y = false ->
        make_interactive_plot df (y :: years) = make_interactive_plot df years).
Proof.
  intros H. split; [| split].
  - unfold make_interactive_plot.
    replace (filter (year_isin years') df) with (filter (year_isin years) df);
      [reflexivity |].
    apply filter_ext. intros r. unfold year_isin.
    destruct (year r) as [v |]; [| reflexivity].
    destruct (py_in v years') eqn:E.
    + apply py_in_In. apply H. now apply py_in_In.
    + apply py_in_false. rewrite H. now apply py_in_false.
  - intros r s Hin. apply in_combine_l in Hin. apply filter_In in Hin.
    destruct Hin as [_ Hy]. unfold year_isin in Hy.
    destruct (year r) as [v |]; [| discriminate].
    exists v. split; [reflexivity | now apply py_in_In].
  - intros y Hy. unfold make_interactive_plot.
    replace (filter (year_isin (y :: years)) df) with (filter (year_isin years) df);
      [reflexivity |].
    apply filter_ext_in. intros r Hr. unfold year_isin, py_in.
    destruct (year r) as [v |] eqn:Ev; [| reflexivity]. simpl.
    destruct (Z.eqb_spec v y) as [-> | Hne]; [| reflexivity].
    exfalso. assert (Ho : year_occurs df y = true).
    { apply year_occurs_In. apply in_map_iff. eauto. }
    congruence.
Qed.

(** X18.  When the table has at most six distinct years and no explicit
    year is configured, the interactive plot of the selected years shows
    every record that has a year, in table order. *)
Theorem interactive_plot_all_records (df : DataFrame) (years : list Z) :
  choose_years None df = Ok years ->
  (distinct_years df <= 6)%nat ->
  map fst (make_interactive_plot df years) = filter has_year df.
Proof.
  intros H Hd. rewrite choose_years_auto_eq in H. injection H as <-.
  rewrite make_interactive_plot_rows.
  change (filter (year_isin (last_n MAX_PANELS (sorted (unique (dropna (map year df)))))) df
          = filter has_year df).
  rewrite last_n_short by (rewrite yrs_length; unfold MAX_PANELS; lia).
  apply filter_ext_in. intros r Hr. unfold year_isin, has_year.
  destruct (year r) as [v |] eqn:Ev; [| reflexivity].
  apply py_in_In, yrs_In, year_occurs_In, in_map_iff. eauto.
Qed.

Local Close Scope float_scope.

(** * Titles *)

Lemma str_int_inj (a b : Z) : str_int a = str_int b -> a = b.
Proof.
  unfold str_int. intros H.
  assert (Hn : forall z, Z.to_int z <> Decimal.Pos Decimal.Nil /\
                         Z.to_int z <> Decimal.Neg Decimal.Nil).
  { intros [| p | p]; simpl; split; try discriminate;
      intros E; injection E as E; now apply Unsigned.to_uint_nonnil in E. }
  apply DecimalZ.to_int_inj.
  assert (E : Some (Z.to_int a) = Some (Z.to_int b)).
  { rewrite <- (NilZero.isi (Z.to_int a)) by apply Hn.
    rewrite <- (NilZero.isi (Z.to_int b)) by apply Hn. now rewrite H. }
  now injection E.
Qed.

(** X19.  The title of a year panel tells its year: two panels with data,
    or two placeholders, that carry the same title are panels of the same
    year. *)
Theorem year_panel_title (df : DataFrame) (i j : nat) (y y' : Z) :
  p_title (year_panel df i y) = p_title (year_panel df j y') ->
  p_axis_off (year_panel df i y) = p_axis_off (year_panel df j y') ->
  y = y'.
Proof.
  unfold year_panel.
  destruct (filter (year_is y) df), (filter (year_is y') df); simpl;
    intros Ht Ha; try discriminate; injection Ht as Ht.
  - apply append_cancel_r in Ht. now apply str_int_inj.
  - now apply str_int_inj.
Qed.

(** * From the CSV to the sizes *)

Local Open Scope float_scope.



Local Close Scope float_scope.

(** * The further properties at sample inputs *)


Lemma load_and_prepare_records_witness :
  exists df,
    snd (load_and_prepare (one_file "m.csv" csv_full) "m.csv") = Ok df
    /\ List.length df = 2%nat
    /\ map year df = [Some 2019; None].
Proof.
  eexists. split; [reflexivity |]. split; [| reflexivity].
  apply (load_and_prepare_records (one_file "m.csv" csv_full) "m.csv" csv_full _
           eq_refl eq_refl).
Defined.

Lemma load_and_prepare_warnings_witness :
  one_file "m.csv" csv_without_gdp "m.csv" = Some csv_without_gdp
  /\ In (warning "gdp")
        (fst (load_and_prepare (one_file "m.csv" csv_without_gdp) "m.csv")).
Proof.
  split; [reflexivity |].
  apply (load_and_prepare_warnings (one_file "m.csv" csv_without_gdp) "m.csv"
           csv_without_gdp eq_refl).
  split; [simpl; tauto | reflexivity].
Defined.

Lemma load_and_prepare_absent_columns_witness :
  exists df row,
    snd (load_and_prepare (one_file "m.csv" csv_without_gdp) "m.csv") = Ok df
    /\ In row df
    /\ is_nan (gdp_numeric row) = true
    /\ both_increase row = None.
Proof.
  eexists. eexists. split; [reflexivity |]. split; [simpl; left; reflexivity |].
  destruct (load_and_prepare_absent_columns (one_file "m.csv" csv_without_gdp)
              "m.csv" csv_without_gdp _ _ eq_refl eq_refl (or_introl eq_refl))
    as [H1 [_ [_ [_ [_ H6]]]]].
  split; [apply H1; reflexivity | apply H6; reflexivity].
Defined.

Lemma choose_years_same_years_witness :
  choose_years None sample_table = choose_years None (rev sample_table).
Proof.
  apply (choose_years_same_years None sample_table (rev sample_table)).
  intros y. destruct (year_occurs (rev sample_table) y) eqn:E.
  - apply year_occurs_In in E. rewrite map_rev in E. apply in_rev in E.
    now apply year_occurs_In.
  - destruct (year_occurs sample_table y) eqn:E'; [| reflexivity].
    apply year_occurs_In, in_rev in E'. rewrite <- map_rev in E'.
    apply year_occurs_In in E'. congruence.
Defined.

Lemma choose_years_latest_witness :
  year_occurs sample_table 2020 = true
  /\ exists res, choose_years None sample_table = Ok res /\ last res 0 = 2020.
Proof.
  split; [reflexivity |].
  destruct (choose_years_latest sample_table 2020 eq_refl) as [res [H1 [_ H2]]].
  - intros z Hz. apply year_occurs_In in Hz. simpl in Hz.
    repeat (destruct Hz as [Hz | Hz]; [injection Hz as <-; lia |]).
    destruct Hz.
  - exists res. auto.
Defined.

Lemma make_static_plot_grid_witness :
  exists fig,
    make_static_plot sample_table [2019; 2020; 2021; 2022] = Ok fig
    /\ fig_cols fig = 3%nat /\ List.length (fig_axes fig) = 6%nat.
Proof.
  eexists. split; [reflexivity |].
  destruct (make_static_plot_grid sample_table [2019; 2020; 2021; 2022] _ eq_refl)
    as [H1 [_ [_ [H4 _]]]].
  split; [exact H1 | exact H4].
Defined.

Lemma make_static_plot_legend_witness :
  exists fig p,
    make_static_plot sample_table [2019; 2020] = Ok fig
    /\ nth_error (fig_axes fig) 0 = Some p
    /\ p_legend p = true
    /\ filter (year_is 2019) sample_table <> [].
Proof.
  eexists. eexists. split; [reflexivity |]. split; [reflexivity |].
  split; [reflexivity |].
  destruct (make_static_plot_legend sample_table [2019; 2020] _ 0 _
              eq_refl eq_refl eq_refl) as [_ [y [Hy H]]].
  injection Hy as <-. exact H.
Defined.

Lemma static_and_interactive_points_witness :
  exists fig,
    make_static_plot sample_table [2019; 2020] = Ok fig
    /\ NoDup [2019; 2020]
    /\ total_markers fig = 4%nat.
Proof.
  assert (Hnd : NoDup [2019; 2020]).
  { constructor; [simpl; lia |]. constructor; [simpl; tauto | constructor]. }
  eexists. split; [reflexivity |]. split; [exact Hnd |].
  destruct (static_and_interactive_points sample_table [2019; 2020] _ eq_refl Hnd)
    as [_ H].
  exact H.
Defined.

Lemma select_and_plot_panels_witness :
  exists fig years,
    select_and_plot None sample_table = Ok fig
    /\ choose_years None sample_table = Ok years
    /\ forall p, In p (fig_axes fig) ->
          p = blank_panel \/ (p_axis_off p = false /\ p_markers p <> []).
Proof.
  eexists.
  destruct (select_and_plot_panels None sample_table _ eq_refl)
    as [years [H1 [_ H3]]].
  exists years. split; [reflexivity |]. split; [exact H1 | exact H3].
Defined.

Lemma annotation_on_marker_witness :
  In (mkAnnotation 3 4 (CStr "Chile")) (p_texts (year_panel sample_table 0 2019))
  /\ exists r, In r (filter (year_is 2019) sample_table)
               /\ country_or_empty r = CStr "Chile".
Proof.
  assert (H : In (mkAnnotation 3 4 (CStr "Chile"))
                 (p_texts (year_panel sample_table 0 2019)))
    by (simpl; auto).
  split; [exact H |].
  destruct (annotation_on_marker sample_table 0 2019 _ H)
    as [r [H1 [_ [_ [_ [H5 _]]]]]].
  exists r. split; [exact H1 | symmetry; exact H5].
Defined.

Lemma static_size_opposite_witness :
  static_size (sample_row "Chile" 2019 (-30000000) 0 0)
  = static_size (sample_row "Chile" 2019 30000000 0 0).
Proof.
  apply (static_size_opposite (sample_row "Chile" 2019 30000000 0 0)
           (sample_row "Chile" 2019 (-30000000) 0 0)).
  reflexivity.
Defined.

Lemma make_interactive_plot_years_witness :
  make_interactive_plot sample_table [2019; 2020]
  = make_interactive_plot sample_table [2020; 2019; 2019].
Proof.
  apply (make_interactive_plot_years sample_table [2019; 2020] [2020; 2019; 2019]).
  intros y. simpl. tauto.
Defined.

Lemma interactive_plot_all_records_witness :
  choose_years None sample_table = Ok [2019; 2020]
  /\ (distinct_years sample_table <= 6)%nat
  /\ map fst (make_interactive_plot sample_table [2019; 2020]) = sample_table.
Proof.
  assert (Hd : (distinct_years sample_table <= 6)%nat)
    by (unfold distinct_years; simpl; lia).
  split; [reflexivity |]. split; [exact Hd |].
  apply (interactive_plot_all_records sample_table [2019; 2020] eq_refl Hd).
Defined.

Lemma year_panel_title_witness :
  p_title (year_panel sample_table 0 2019) = p_title (year_panel sample_table 1 2019)
  /\ (2019 = 2019)%Z.
Proof.
  split; [reflexivity |].
  apply (year_panel_title sample_table 0 1 2019 2019); reflexivity.
Defined.

